(** * A shallow embedding of the task store of tasakman.cpp

    The store file is modelled as [option (list ascii)]: [None] when the file
    does not exist, [Some bytes] otherwise.  Each function below follows the
    C function of the same name.  File-open failures for writing (permission
    errors, a missing HOME) are not modelled: every open of an existing file,
    of the temporary file and of the append handle succeeds. *)

From Stdlib Require Import List Ascii String ZArith NArith Lia Bool.
Import ListNotations.

(** ** Characters, C strings and the line buffer *)

Definition NL : ascii := "010"%char.
Definition NUL : ascii := "000"%char.

Definition s2l (s : string) : list ascii := list_ascii_of_string s.

(** [#define MAX_DESCRIPTION_LEN 256] *)
Definition MAX_DESCRIPTION_LEN : nat := 256.

(** [char line[MAX_DESCRIPTION_LEN + 20]]: the buffer every loop reads into. *)
Definition LINE_BUF : nat := MAX_DESCRIPTION_LEN + 20.

(** A buffer read by [fgets] is seen by [sscanf] and by [fprintf("%s")] as
    the C string ending at its first NUL byte. *)
Fixpoint cstr (l : list ascii) : list ascii :=
  match l with
  | [] => []
  | c :: l' => if Ascii.eqb c NUL then [] else c :: cstr l'
  end.

(** One call [fgets(line, n+1, file)]: at most [n] bytes, stopping after a
    newline; returns the bytes read and the rest of the file. *)
Fixpoint fgets_take (n : nat) (s : list ascii) : list ascii * list ascii :=
  match n with
  | O => ([], s)
  | S n' =>
      match s with
      | [] => ([], [])
      | c :: s' =>
          if Ascii.eqb c NL then ([c], s')
          else let '(l, r) := fgets_take n' s' in (c :: l, r)
      end
  end.

Fixpoint fgets_lines_fuel (fuel : nat) (s : list ascii) : list (list ascii) :=
  match fuel with
  | O => []
  | S fuel' =>
      match s with
      | [] => []
      | _ :: _ =>
          let '(l, r) := fgets_take (LINE_BUF - 1) s in
          l :: fgets_lines_fuel fuel' r
      end
  end.

(** [while (fgets(line, sizeof(line), file) != NULL)]: the successive
    buffers the loop sees.  A physical line longer than [LINE_BUF - 1]
    bytes is seen as several buffers. *)
Definition fgets_lines (s : list ascii) : list (list ascii) :=
  fgets_lines_fuel (List.length s) s.

(** ** The [sscanf] conversions used by the source *)

Definition isspace (c : ascii) : bool :=
  match nat_of_ascii c with
  | 9 | 10 | 11 | 12 | 13 | 32 => true
  | _ => false
  end.

Definition isdigit (c : ascii) : bool :=
  (48 <=? nat_of_ascii c)%nat && (nat_of_ascii c <=? 57)%nat.

Definition digit_val (c : ascii) : Z := (Z.of_nat (nat_of_ascii c) - 48)%Z.

Fixpoint skip_space (s : list ascii) : list ascii :=
  match s with
  | c :: s' => if isspace c then skip_space s' else s
  | [] => []
  end.

Fixpoint scan_digits (acc : Z) (s : list ascii) : Z * list ascii :=
  match s with
  | c :: s' => if isdigit c then scan_digits (acc * 10 + digit_val c)%Z s' else (acc, s)
  | [] => (acc, [])
  end.

(** glibc converts [%d] (and [atoi]) with [strtol]: the value saturates at
    the bounds of a 64-bit [long] and is then stored in a 32-bit [int],
    which keeps its low 32 bits (two's complement). *)
Definition clamp_long (z : Z) : Z := Z.max (- 2 ^ 63) (Z.min (2 ^ 63 - 1) z).

Definition to_int (z : Z) : Z := ((z + 2 ^ 31) mod 2 ^ 32 - 2 ^ 31)%Z.

(** [%d]: optional white space, an optional sign, one or more decimal
    digits (the longest run), stored in an [int]. *)
Definition scan_int (s : list ascii) : option (Z * list ascii) :=
  let s1 := skip_space s in
  let '(neg, s2) :=
    match s1 with
    | c :: s' =>
        if Ascii.eqb c "-"%char then (true, s')
        else if Ascii.eqb c "+"%char then (false, s')
        else (false, s1)
    | [] => (false, [])
    end in
  match s2 with
  | c :: _ =>
      if isdigit c then
        let '(v, r) := scan_digits 0 s2 in
        Some (to_int (clamp_long (if neg then (- v)%Z else v)), r)
      else None
  | [] => None
  end.

(** [%[^\n]]: the longest run of bytes other than a newline (the end of the
    C string also stops it). *)
Fixpoint scan_not_nl (s : list ascii) : list ascii :=
  match s with
  | c :: s' => if Ascii.eqb c NL then [] else c :: scan_not_nl s'
  | [] => []
  end.

(** [sscanf(line, "%d,", &id) == 1]: only the leading integer matters; the
    comma after it is not required for the count to be 1. *)
Definition scan_id (line : list ascii) : option Z :=
  match scan_int (cstr line) with
  | Some (id, _) => Some id
  | None => None
  end.

(** [sscanf(line, "%d,%d,%[^\n]", &id, &status, description) == 3].  The
    description is kept whole; the source's 256-byte [description] buffer
    would overflow (undefined behaviour) for more than 255 bytes, so the
    theorems about stores that are scanned this way assume [records_fit]
    below. *)
Definition scan_record (line : list ascii) : option (Z * Z * list ascii) :=
  match scan_int (cstr line) with
  | Some (id, c1 :: r1) =>
      if Ascii.eqb c1 ","%char then
        match scan_int r1 with
        | Some (status, c2 :: r2) =>
            if Ascii.eqb c2 ","%char then
              match scan_not_nl r2 with
              | [] => None
              | description => Some (id, status, description)
              end
            else None
        | _ => None
        end
      else None
  | _ => None
  end.

(** ** Printing with [fprintf] *)

Definition digit_char (n : N) : ascii := ascii_of_N (48 + n).

Fixpoint digits_fuel (fuel : nat) (n : N) : list ascii :=
  match fuel with
  | O => []
  | S f =>
      if (n <? 10)%N then [digit_char n]
      else digits_fuel f (n / 10)%N ++ [digit_char (n mod 10)%N]
  end.

Definition print_N (n : N) : list ascii := digits_fuel (S (N.size_nat n)) n.

(** [%d] *)
Definition print_int (z : Z) : list ascii :=
  if (z <? 0)%Z then "-"%char :: print_N (Z.to_N (- z)) else print_N (Z.to_N z).

(** [fprintf(file, "%d,%d,%s\n", id, status, description)] *)
Definition print_record (id status : Z) (description : list ascii) : list ascii :=
  print_int id ++ [","%char] ++ print_int status ++ [","%char] ++ cstr description ++ [NL].

(** ** The store operations *)

Definition store := option (list ascii).

(** [getNextTaskId]: [maxId] starts at 0 and takes every leading integer
    found by [sscanf(line, "%d,", &id)] (an [int], see [scan_int]).  The
    final [maxId + 1] overflows when [maxId] is [INT_MAX] (undefined
    behaviour); the theorems exclude it with [no_id_overflow] below. *)
Definition next_id_step (maxId : Z) (line : list ascii) : Z :=
  match scan_id line with
  | Some id => if (id >? maxId)%Z then id else maxId
  | None => maxId
  end.

Definition getNextTaskId (st : store) : Z :=
  match st with
  | None => 1
  | Some f => (fold_left next_id_step (fgets_lines f) 0 + 1)%Z
  end.

(** [addTask]: [fopen(.., "a")] creates the file when absent, then
    [getNextTaskId] reads it and the new line is appended.  The result
    carries the id reported by "Task added: ID %d". *)
Definition addTask (st : store) (description : list ascii) : store * Z :=
  let f := match st with None => [] | Some f => f end in
  let id := getNextTaskId (Some f) in
  (Some (f ++ print_record id 0 description), id).

(** [listTasks] *)
Inductive list_result :=
| NoTaskFile                                   (* "No tasks found. Create one ..." *)
| Listed (records : list (Z * Z * list ascii)). (* "No tasks found." when empty *)

Inductive status_text := DONE | PENDING.

(** [status == 1 ? "[DONE]" : "[PENDING]"] *)
Definition status_text_of (status : Z) : status_text :=
  if (status =? 1)%Z then DONE else PENDING.

Definition list_line (line : list ascii) : list (Z * Z * list ascii) :=
  match scan_record line with
  | Some r => [r]
  | None => []
  end.

Definition listTasks (st : store) : list_result :=
  match st with
  | None => NoTaskFile
  | Some f => Listed (flat_map list_line (fgets_lines f))
  end.

(** The copy loop shared by [modifyTaskStatus] and [deleteTask]: each
    buffer yields the bytes written to the temporary file and whether it set
    [taskFound]. *)
Fixpoint rewrite_loop (step : list ascii -> list ascii * bool)
         (lines : list (list ascii)) (taskFound : bool) : list ascii * bool :=
  match lines with
  | [] => ([], taskFound)
  | line :: rest =>
      let '(out, hit) := step line in
      let '(out', found) := rewrite_loop step rest (taskFound || hit) in
      (out ++ out', found)
  end.

Inductive report :=
| NoTasksFound   (* the store file could not be opened for reading *)
| TaskFound      (* "Task ID %d marked as ..." / "Task ID %d deleted." *)
| TaskNotFound.  (* "Task ID %d not found." *)

(** The loop body of [modifyTaskStatus]. *)
Definition modify_line (taskId : Z) (complete : bool) (line : list ascii)
  : list ascii * bool :=
  match scan_record line with
  | Some (id, _, description) =>
      if (id =? taskId)%Z
      then (print_record id (if complete then 1 else 0) description, true)
      else (cstr line, false)
  | None => (cstr line, false)
  end.

(** [modifyTaskStatus]: the temporary file replaces the original
    ([remove] then [rename]). *)
Definition modifyTaskStatus (st : store) (taskId : Z) (complete : bool)
  : store * report :=
  match st with
  | None => (None, NoTasksFound)
  | Some f =>
      let '(out, found) := rewrite_loop (modify_line taskId complete) (fgets_lines f) false in
      (Some out, if found then TaskFound else TaskNotFound)
  end.

(** The loop body of [deleteTask]: only the leading integer is looked at. *)
Definition delete_line (taskId : Z) (line : list ascii) : list ascii * bool :=
  match scan_id line with
  | Some id => if (id =? taskId)%Z then ([], true) else (cstr line, false)
  | None => (cstr line, false)
  end.

Definition deleteTask (st : store) (taskId : Z) : store * report :=
  match st with
  | None => (None, NoTasksFound)
  | Some f =>
      let '(out, found) := rewrite_loop (delete_line taskId) (fgets_lines f) false in
      (Some out, if found then TaskFound else TaskNotFound)
  end.

(** ** [main] *)

(** glibc's [atoi] is [(int) strtol(s, NULL, 10)]: it parses like [%d]
    (value clamped to [long], then truncated to [int]) and gives 0 when
    there is no number. *)
Definition atoi (s : list ascii) : Z :=
  match scan_int (cstr s) with
  | Some (z, _) => z
  | None => 0
  end.

(** The [strcat] loop joining the words of [add] with single spaces.  The
    source's 256-byte buffer overflows (undefined behaviour) when the joined
    words take 256 bytes or more; this is not modelled, and the theorems
    about [main] exclude it with [args_fit] below. *)
Fixpoint join_words (ws : list (list ascii)) : list ascii :=
  match ws with
  | [] => []
  | [w] => cstr w
  | w :: ws' => cstr w ++ [" "%char] ++ join_words ws'
  end.

Inductive message :=
| Usage
| InvalidTaskId
| TaskAdded (id : Z)
| Listing (r : list_result)
| StatusChanged (taskId : Z) (r : report)
| Deleted (taskId : Z) (r : report).

Definition is_cmd (arg : list ascii) (name : string) : bool :=
  if list_eq_dec ascii_dec (cstr arg) (s2l name) then true else false.

(** [main] after the HOME check and the directory bootstrap; [args] is
    [argv[1..]].  Result: exit status, store afterwards, message printed. *)
Definition main (args : list (list ascii)) (st : store) : Z * store * message :=
  let with_id (k : Z -> Z * store * message) :=
    match args with
    | _ :: a :: _ => let taskId := atoi a in
                     if (taskId <=? 0)%Z then (1%Z, st, InvalidTaskId) else k taskId
    | _ => (1%Z, st, Usage)
    end in
  match args with
  | [] => (1%Z, st, Usage)
  | cmd :: rest =>
      if is_cmd cmd "add" then
        match rest with
        | [] => (1%Z, st, Usage)
        | _ => let '(st', id) := addTask st (join_words rest) in (0%Z, st', TaskAdded id)
        end
      else if is_cmd cmd "list" then (0%Z, st, Listing (listTasks st))
      else if is_cmd cmd "done" then
        with_id (fun taskId => let '(st', r) := modifyTaskStatus st taskId true in
                               (0%Z, st', StatusChanged taskId r))
      else if is_cmd cmd "pending" then
        with_id (fun taskId => let '(st', r) := modifyTaskStatus st taskId false in
                               (0%Z, st', StatusChanged taskId r))
      else if is_cmd cmd "delete" then
        with_id (fun taskId => let '(st', r) := deleteTask st taskId in
                               (0%Z, st', Deleted taskId r))
      else (1%Z, st, Usage)
  end.

(** ** Helper notions used in the statements *)

(** The leading integers [getNextTaskId] and [deleteTask] find, one per
    read line that has one. *)
Definition leading_ids (f : list ascii) : list Z :=
  flat_map (fun line => match scan_id line with Some k => [k] | None => [] end)
           (fgets_lines f).

(** Whether the leading integer found by [sscanf(line, "%d,", &id)] is
    [taskId]. *)
Definition same_id (found : option Z) (taskId : Z) : bool :=
  match found with
  | Some id => (id =? taskId)%Z
  | None => false
  end.

Definition nul_free (l : list ascii) : Prop := ~ In NUL l.

Definition int_range (z : Z) : Prop := (- 2 ^ 31 <= z < 2 ^ 31)%Z.

(** Every record the [%d,%d,%[^\n]] scan finds fits the source's [int]s and
    its 256-byte [description] buffer (no undefined behaviour). *)
Definition records_fit (f : list ascii) : Prop :=
  forall line id status description,
    In line (fgets_lines f) ->
    scan_record line = Some (id, status, description) ->
    int_range id /\ int_range status /\ (List.length description < MAX_DESCRIPTION_LEN)%nat.

Definition INT_MAX : Z := (2 ^ 31 - 1)%Z.

(** [maxId + 1] in [getNextTaskId] stays an [int]: no leading id is
    [INT_MAX] (the increment would overflow, which is undefined). *)
Definition no_id_overflow (f : list ascii) : Prop :=
  Forall (fun k => (k < INT_MAX)%Z) (leading_ids f).

(** The physical lines of a file, each with its newline (the last one may
    lack it). *)
Fixpoint split_lines (s : list ascii) : list (list ascii) :=
  match s with
  | [] => []
  | c :: s' =>
      if Ascii.eqb c NL then [NL] :: split_lines s'
      else match split_lines s' with
           | [] => [[c]]
           | l :: ls => (c :: l) :: ls
           end
  end.

(** Every physical line, newline included, fits one [fgets] buffer of
    [LINE_BUF - 1] bytes. *)
Definition lines_fit (f : list ascii) : Prop :=
  Forall (fun l => (List.length l <= LINE_BUF - 1)%nat) (split_lines f).

(** No undefined behaviour in the store operations [main] runs: the
    records fit their [int]s and [description] buffer and no id reaches
    [INT_MAX]. *)
Definition store_fits (st : store) : Prop :=
  match st with
  | None => True
  | Some f => records_fit f /\ no_id_overflow f
  end.

(** The words of [add] joined by [strcat] fit main's 256-byte
    [description] buffer. *)
Definition args_fit (args : list (list ascii)) : Prop :=
  match args with
  | cmd :: rest =>
      is_cmd cmd "add" = true -> (List.length (join_words rest) < MAX_DESCRIPTION_LEN)%nat
  | [] => True
  end.

(** A list of buffers that the [fgets] loop reads back one by one from
    their concatenation. *)
Fixpoint read_back (cs : list (list ascii)) : Prop :=
  match cs with
  | [] => True
  | c :: cs' =>
      c <> [] /\ fgets_take (LINE_BUF - 1) (c ++ List.concat cs') = (c, List.concat cs') /\ read_back cs'
  end.

Definition is_digit_char (c : ascii) : Prop := exists k, (k < 10)%N /\ c = digit_char k.

Definition horner (acc : Z) (c : ascii) : Z := (acc * 10 + digit_val c)%Z.

(** What the copy loop writes for one buffer: the buffer itself, or one
    newline-terminated line that fits the buffer. *)
Definition line_shape (l out : list ascii) : Prop :=
  out = l \/
  exists c, out = c ++ [NL] /\ ~ In NL c /\ (List.length c < LINE_BUF - 1)%nat.

(** The file is empty or its last byte is a newline: appending to it starts
    a new line. *)
Definition ends_line (f : list ascii) : Prop := f = [] \/ exists f', f = f' ++ [NL].

(** A listed record after [SetStatus(taskId, complete)] has run. *)
Definition update_status (taskId : Z) (complete : bool) (r : Z * Z * list ascii)
  : Z * Z * list ascii :=
  let '(id, status, d) := r in
  if (id =? taskId)%Z then (id, if complete then 1%Z else 0%Z, d) else (id, status, d).

(** Whether [deleteTask] copies a read line to the temporary file. *)
Definition delete_keep (taskId : Z) (line : list ascii) : bool :=
  match scan_id line with
  | Some id => negb (id =? taskId)%Z
  | None => true
  end.

(** ** The [fgets] loop *)

Lemma fgets_take_app n s l r : fgets_take n s = (l, r) -> l ++ r = s.
Proof.
  revert s l r; induction n as [|n IH]; intros [|c s] l r H; cbn in H;
    try (injection H as <- <-; reflexivity).
  destruct (Ascii.eqb c NL).
  - injection H as <- <-; reflexivity.
  - destruct (fgets_take n s) as [l' r'] eqn:E.
    injection H as <- <-. cbn. f_equal. apply IH; exact E.
Qed.

Lemma fgets_take_nonempty n c s l r :
  fgets_take (S n) (c :: s) = (l, r) -> l <> [].
Proof.
  cbn. destruct (Ascii.eqb c NL).
  - intros H; injection H as <- _; discriminate.
  - destruct (fgets_take n s); intros H; injection H as <- _; discriminate.
Qed.

Lemma LINE_BUF_pred : LINE_BUF - 1 = S 274.
Proof. reflexivity. Qed.

Lemma fgets_take_shorter c s l r :
  fgets_take (LINE_BUF - 1) (c :: s) = (l, r) -> l <> [] /\ (List.length r <= List.length s)%nat.
Proof.
  rewrite LINE_BUF_pred. intros H. pose proof (fgets_take_nonempty _ _ _ _ _ H) as Hne.
  apply fgets_take_app in H. split; [exact Hne|].
  destruct l as [|x l]; [congruence|]. injection H as _ <-. rewrite length_app. lia.
Qed.

Lemma fgets_lines_fuel_indep fuel1 fuel2 s :
  (List.length s <= fuel1)%nat -> (List.length s <= fuel2)%nat ->
  fgets_lines_fuel fuel1 s = fgets_lines_fuel fuel2 s.
Proof.
  revert fuel2 s; induction fuel1 as [|f1 IH]; intros [|f2] [|c s] H1 H2;
    cbn in H1, H2; try lia; try reflexivity.
  cbn [fgets_lines_fuel].
  destruct (fgets_take (LINE_BUF - 1) (c :: s)) as [l r] eqn:E.
  apply fgets_take_shorter in E as [_ Hr].
  f_equal. apply IH; lia.
Qed.

Lemma fgets_lines_eq s :
  fgets_lines s =
  match s with
  | [] => []
  | _ :: _ => let '(l, r) := fgets_take (LINE_BUF - 1) s in l :: fgets_lines r
  end.
Proof.
  destruct s as [|c s]; [reflexivity|].
  unfold fgets_lines at 1. cbn [List.length fgets_lines_fuel].
  destruct (fgets_take (LINE_BUF - 1) (c :: s)) as [l r] eqn:E.
  apply fgets_take_shorter in E as [_ Hr].
  f_equal. apply fgets_lines_fuel_indep; lia.
Qed.

Lemma concat_fgets_lines s : List.concat (fgets_lines s) = s.
Proof.
  remember (List.length s) as n eqn:Hn. revert s Hn.
  induction n as [n IH] using lt_wf_ind. intros s Hn.
  rewrite fgets_lines_eq. destruct s as [|c s]; [reflexivity|].
  destruct (fgets_take (LINE_BUF - 1) (c :: s)) as [l r] eqn:E.
  pose proof E as E'. apply fgets_take_shorter in E' as [_ Hr].
  apply fgets_take_app in E.
  cbn [List.concat]. rewrite (IH (List.length r)) by (cbn in Hn; lia). exact E.
Qed.

Lemma read_back_fgets_lines s : read_back (fgets_lines s).
Proof.
  remember (List.length s) as n eqn:Hn. revert s Hn.
  induction n as [n IH] using lt_wf_ind. intros s Hn.
  rewrite fgets_lines_eq. destruct s as [|c s]; [exact I|].
  destruct (fgets_take (LINE_BUF - 1) (c :: s)) as [l r] eqn:E.
  pose proof E as E'. apply fgets_take_shorter in E' as [Hne Hr].
  cbn [read_back]. rewrite concat_fgets_lines.
  pose proof E as E2. apply fgets_take_app in E2. rewrite E2, E.
  split; [exact Hne|split; [reflexivity|]].
  apply (IH (List.length r)); [cbn in Hn; lia|reflexivity].
Qed.

Lemma fgets_lines_concat cs : read_back cs -> fgets_lines (List.concat cs) = cs.
Proof.
  induction cs as [|c cs IH]; intros H; [reflexivity|].
  destruct H as (Hne & Htake & Hrest).
  cbn [List.concat]. rewrite fgets_lines_eq.
  destruct c as [|x c]; [congruence|].
  cbn [app] in *. rewrite Htake. f_equal. apply IH; exact Hrest.
Qed.

Lemma in_fgets_lines_in x c s : In c (fgets_lines s) -> In x c -> In x s.
Proof.
  intros Hc Hx. rewrite <- (concat_fgets_lines s). apply in_concat. eauto.
Qed.

(** ** The copy loop *)

Lemma rewrite_loop_spec step lines found :
  rewrite_loop step lines found =
  (List.concat (map (fun l => fst (step l)) lines),
   found || existsb (fun l => snd (step l)) lines).
Proof.
  revert found; induction lines as [|l lines IH]; intros found; cbn.
  - rewrite orb_false_r. reflexivity.
  - destruct (step l) as [out hit]. rewrite IH. cbn. rewrite orb_assoc. reflexivity.
Qed.

Lemma cstr_nul_free l : nul_free l -> cstr l = l.
Proof.
  unfold nul_free. induction l as [|c l IH]; intros H; [reflexivity|].
  cbn. destruct (Ascii.eqb c NUL) eqn:E.
  - apply Ascii.eqb_eq in E. subst. exfalso. apply H. left; reflexivity.
  - f_equal. apply IH. intros Hin. apply H. right; exact Hin.
Qed.

Lemma nul_free_check l : existsb (Ascii.eqb NUL) l = false -> nul_free l.
Proof.
  intros H Hin.
  assert (Ht : existsb (Ascii.eqb NUL) l = true).
  { apply existsb_exists. exists NUL. split; [exact Hin|apply Ascii.eqb_refl]. }
  congruence.
Qed.

Lemma nul_free_line f c : nul_free f -> In c (fgets_lines f) -> nul_free c.
Proof. intros Hf Hc Hin. apply Hf. eapply in_fgets_lines_in; eauto. Qed.

(** ** Printing and scanning integers *)

Lemma digit_char_facts k :
  (k < 10)%N ->
  isdigit (digit_char k) = true /\ digit_val (digit_char k) = Z.of_N k /\
  isspace (digit_char k) = false /\ digit_char k <> NL /\ digit_char k <> NUL /\
  digit_char k <> ","%char /\ digit_char k <> "-"%char /\ digit_char k <> "+"%char.
Proof.
  intros H.
  assert (k = 0 \/ k = 1 \/ k = 2 \/ k = 3 \/ k = 4 \/ k = 5 \/ k = 6 \/ k = 7 \/
          k = 8 \/ k = 9)%N as Hk by lia.
  repeat (destruct Hk as [-> | Hk]; [vm_compute; repeat split; discriminate|]).
  subst; vm_compute; repeat split; discriminate.
Qed.

Lemma digits_fuel_digits fuel n : Forall is_digit_char (digits_fuel fuel n).
Proof.
  revert n; induction fuel as [|fuel IH]; intros n; cbn [digits_fuel]; [constructor|].
  destruct (n <? 10)%N eqn:E.
  - constructor; [|constructor]. exists n; split; [apply N.ltb_lt; exact E|reflexivity].
  - apply Forall_app; split; [apply IH|].
    constructor; [|constructor].
    exists (n mod 10)%N; split; [apply N.mod_lt; discriminate|reflexivity].
Qed.

Lemma digits_fuel_nonempty fuel n : digits_fuel (S fuel) n <> [].
Proof.
  cbn [digits_fuel]. destruct (n <? 10)%N; [discriminate|].
  intros H. apply app_eq_nil in H as [_ H]. discriminate.
Qed.

Lemma size_nat_div10 n : (10 <= n)%N -> (N.size_nat (n / 10) < N.size_nat n)%nat.
Proof.
  intros Hn.
  pose proof (N.div_mod n 10 ltac:(discriminate)) as Hd.
  pose proof (N.mod_lt n 10 ltac:(discriminate)) as Hm.
  destruct (n / 10)%N as [|q] eqn:Eq; [lia|].
  destruct n as [|p]; [lia|]. cbn [N.size_nat].
  change (Pos.size_nat (q~0) <= Pos.size_nat p)%nat.
  assert (Hq : Z.pos q~0 = (2 * Z.pos q)%Z) by reflexivity.
  set (r := (N.pos p mod 10)%N) in *.
  assert (q~0 < p \/ q~0 = p)%positive as [Hlt | <-] by lia.
  - apply Pos.size_nat_monotone; exact Hlt.
  - lia.
Qed.

Lemma scan_digits_app acc ds r :
  Forall (fun c => isdigit c = true) ds ->
  match r with c :: _ => isdigit c = false | [] => True end ->
  scan_digits acc (ds ++ r) = (fold_left horner ds acc, r).
Proof.
  revert acc; induction ds as [|d ds IH]; intros acc Hds Hr; cbn [app fold_left].
  - destruct r as [|c r]; [reflexivity|]. cbn [scan_digits]. rewrite Hr. reflexivity.
  - inversion Hds as [|? ? Hd Hds']; subst. cbn [scan_digits]. rewrite Hd. apply IH; assumption.
Qed.

Lemma digits_fuel_value fuel n :
  (N.size_nat n < fuel)%nat -> fold_left horner (digits_fuel fuel n) 0%Z = Z.of_N n.
Proof.
  revert n; induction fuel as [|fuel IH]; intros n Hs; [lia|].
  cbn [digits_fuel]. destruct (n <? 10)%N eqn:E.
  - apply N.ltb_lt in E. cbn. unfold horner.
    destruct (digit_char_facts n E) as (_ & Hv & _). rewrite Hv. lia.
  - apply N.ltb_ge in E. rewrite fold_left_app. cbn [fold_left].
    rewrite IH by (pose proof (size_nat_div10 n E); lia).
    pose proof (N.mod_lt n 10 ltac:(discriminate)) as Hm.
    destruct (digit_char_facts (n mod 10)%N Hm) as (_ & Hv & _).
    unfold horner. rewrite Hv.
    pose proof (N.div_mod n 10 ltac:(discriminate)) as Hd.
    set (q := (n / 10)%N) in *. set (m := (n mod 10)%N) in *. lia.
Qed.

Lemma digits_fuel_length fuel n k :
  (n < 10 ^ N.of_nat k)%N -> (1 <= k)%nat -> (List.length (digits_fuel fuel n) <= k)%nat.
Proof.
  revert n k; induction fuel as [|fuel IH]; intros n k Hn Hk; cbn [digits_fuel]; [cbn; lia|].
  destruct (n <? 10)%N eqn:E; [cbn; lia|].
  apply N.ltb_ge in E. rewrite length_app. cbn [List.length].
  destruct k as [|k]; [lia|].
  rewrite Nat2N.inj_succ, N.pow_succ_r' in Hn.
  assert (1 <= k)%nat.
  { destruct k as [|k]; [cbn in Hn; lia|lia]. }
  assert (n / 10 < 10 ^ N.of_nat k)%N by (apply N.Div0.div_lt_upper_bound; lia).
  specialize (IH (n / 10)%N k ltac:(assumption) ltac:(assumption)). lia.
Qed.

Lemma print_N_digits n : Forall is_digit_char (print_N n).
Proof. apply digits_fuel_digits. Qed.

Lemma print_N_value n : fold_left horner (print_N n) 0%Z = Z.of_N n.
Proof. apply digits_fuel_value. lia. Qed.

Lemma print_N_head n : exists k ds, (k < 10)%N /\ print_N n = digit_char k :: ds.
Proof.
  pose proof (print_N_digits n) as H. unfold print_N in *.
  pose proof (digits_fuel_nonempty (N.size_nat n) n) as Hne.
  destruct (digits_fuel (S (N.size_nat n)) n) as [|c ds]; [congruence|].
  inversion H as [|? ? (k & Hk & ->) _]. exists k, ds. split; [exact Hk|reflexivity].
Qed.

Lemma is_digit_char_isdigit : forall l, Forall is_digit_char l -> Forall (fun c => isdigit c = true) l.
Proof.
  intros l. apply Forall_impl. intros c (k & Hk & ->). apply digit_char_facts; exact Hk.
Qed.

Lemma scan_int_print_N (neg : bool) n r :
  match r with c :: _ => isdigit c = false | [] => True end ->
  scan_int ((if neg then ["-"%char] else []) ++ print_N n ++ r)
  = Some (to_int (clamp_long (if neg then - Z.of_N n else Z.of_N n)%Z), r).
Proof.
  intros Hr.
  assert (Hdig : scan_digits 0 (print_N n ++ r) = (Z.of_N n, r)).
  { rewrite scan_digits_app; [rewrite print_N_value; reflexivity| |exact Hr].
    apply is_digit_char_isdigit, print_N_digits. }
  destruct (print_N_head n) as (k & ds & Hk & Hhead).
  destruct (digit_char_facts k Hk) as (Hd & _ & Hsp & _ & _ & _ & Hminus & Hplus).
  rewrite Hhead in Hdig |- *. unfold scan_int. cbn [app] in Hdig.
  destruct neg; cbn [app skip_space].
  - change (isspace "-"%char) with false. cbv iota.
    change (Ascii.eqb "-"%char "-"%char) with true. cbv iota beta.
    rewrite Hd, Hdig. reflexivity.
  - rewrite Hsp.
    rewrite (proj2 (Ascii.eqb_neq _ _) Hminus), (proj2 (Ascii.eqb_neq _ _) Hplus).
    rewrite Hd, Hdig. reflexivity.
Qed.

Lemma to_int_range z : int_range (to_int z).
Proof.
  unfold int_range, to_int.
  pose proof (Z.mod_pos_bound (z + 2 ^ 31) (2 ^ 32) ltac:(lia)).
  replace (2 ^ 32)%Z with (2 * 2 ^ 31)%Z in * by reflexivity. lia.
Qed.

Lemma to_int_clamp z : int_range z -> to_int (clamp_long z) = z.
Proof.
  unfold int_range, to_int, clamp_long. intros Hz.
  replace (Z.max (- 2 ^ 63) (Z.min (2 ^ 63 - 1) z)) with z.
  - rewrite Z.mod_small; [lia|]. replace (2 ^ 32)%Z with (2 * 2 ^ 31)%Z by reflexivity. lia.
  - change (2 ^ 63)%Z with 9223372036854775808%Z. change (2 ^ 31)%Z with 2147483648%Z in Hz. lia.
Qed.

Lemma scan_int_print z r :
  int_range z ->
  match r with c :: _ => isdigit c = false | [] => True end ->
  scan_int (print_int z ++ r) = Some (z, r).
Proof.
  intros Hz Hr. rewrite <- (to_int_clamp z Hz) at 2.
  unfold print_int. destruct (z <? 0)%Z eqn:Ez.
  - pose proof (scan_int_print_N true (Z.to_N (- z)) r Hr) as H. cbn [app] in H.
    rewrite <- app_comm_cons, H. apply Z.ltb_lt in Ez. rewrite Z2N.id by lia.
    rewrite Z.opp_involutive. reflexivity.
  - pose proof (scan_int_print_N false (Z.to_N z) r Hr) as H. cbn [app] in H.
    rewrite H. apply Z.ltb_ge in Ez. rewrite Z2N.id by lia. reflexivity.
Qed.

Lemma scan_int_range s z r : scan_int s = Some (z, r) -> int_range z.
Proof.
  unfold scan_int. intros H.
  repeat (match type of H with context [match ?x with _ => _ end] => destruct x end;
          try discriminate);
    injection H as <- _; apply to_int_range.
Qed.

Lemma scan_record_range l id status d :
  scan_record l = Some (id, status, d) -> int_range id /\ int_range status.
Proof.
  unfold scan_record.
  destruct (scan_int (cstr l)) as [[i [|c1 r1]]|] eqn:E1; try discriminate.
  destruct (Ascii.eqb c1 ","%char); [|discriminate].
  destruct (scan_int r1) as [[st [|c2 r2]]|] eqn:E2; try discriminate.
  destruct (Ascii.eqb c2 ","%char); [|discriminate].
  destruct (scan_not_nl r2); [discriminate|]. intros H; injection H as <- <- _.
  split; eapply scan_int_range; eauto.
Qed.

Lemma status_range (complete : bool) : int_range (if complete then 1 else 0).
Proof. destruct complete; unfold int_range; lia. Qed.

(** ** Printed records *)

Lemma nul_free_app a b : nul_free a -> nul_free b -> nul_free (a ++ b).
Proof. unfold nul_free. intros Ha Hb Hin. apply in_app_iff in Hin as [H|H]; auto. Qed.

Lemma print_int_chars z : Forall (fun c => c = "-"%char \/ is_digit_char c) (print_int z).
Proof.
  unfold print_int. destruct (z <? 0)%Z.
  - constructor; [left; reflexivity|].
    eapply Forall_impl; [|apply print_N_digits]. intros c Hc; right; exact Hc.
  - eapply Forall_impl; [|apply print_N_digits]. intros c Hc; right; exact Hc.
Qed.

Lemma print_int_avoids z c :
  c <> "-"%char -> (forall k, (k < 10)%N -> digit_char k <> c) -> ~ In c (print_int z).
Proof.
  intros Hm Hd Hin. pose proof (print_int_chars z) as H.
  rewrite Forall_forall in H. destruct (H c Hin) as [-> | (k & Hk & ->)].
  - apply Hm; reflexivity.
  - apply (Hd k Hk); reflexivity.
Qed.

Lemma print_int_nul_free z : nul_free (print_int z).
Proof.
  apply print_int_avoids; [discriminate|]. intros k Hk. apply digit_char_facts; exact Hk.
Qed.

Lemma print_int_no_nl z : ~ In NL (print_int z).
Proof.
  apply print_int_avoids; [discriminate|]. intros k Hk. apply digit_char_facts; exact Hk.
Qed.

Lemma print_int_length z : int_range z -> (List.length (print_int z) <= 11)%nat.
Proof.
  unfold int_range, print_int. intros Hz. change (2 ^ 31)%Z with 2147483648%Z in Hz.
  destruct (z <? 0)%Z eqn:E; cbn [List.length]; unfold print_N.
  - enough (List.length (digits_fuel (S (N.size_nat (Z.to_N (- z)))) (Z.to_N (- z))) <= 10)%nat
      by lia.
    apply digits_fuel_length; [|lia]. change (10 ^ N.of_nat 10)%N with 10000000000%N. lia.
  - enough (List.length (digits_fuel (S (N.size_nat (Z.to_N z))) (Z.to_N z)) <= 10)%nat
      by lia.
    apply digits_fuel_length; [|lia]. change (10 ^ N.of_nat 10)%N with 10000000000%N. lia.
Qed.

Lemma scan_not_nl_app d r : ~ In NL d -> scan_not_nl (d ++ NL :: r) = d.
Proof.
  induction d as [|c d IH]; intros H; cbn.
  - reflexivity.
  - destruct (Ascii.eqb c NL) eqn:E.
    + apply Ascii.eqb_eq in E. subst. exfalso. apply H. left; reflexivity.
    + f_equal. apply IH. intros Hin. apply H. right; exact Hin.
Qed.

Lemma print_record_nul_free id status d : nul_free d -> nul_free (print_record id status d).
Proof.
  intros Hd. unfold print_record. rewrite (cstr_nul_free d Hd).
  repeat apply nul_free_app; try apply print_int_nul_free; try exact Hd;
    intros [H|[]]; discriminate.
Qed.

(** The record line written by [fprintf(.., "%d,%d,%s\n", ..)] scans back
    to the same fields. *)
Lemma scan_record_print id status d :
  int_range id -> int_range status -> d <> [] -> ~ In NL d -> nul_free d ->
  scan_record (print_record id status d) = Some (id, status, d).
Proof.
  intros Hid Hst Hne Hnl Hnul. unfold scan_record.
  rewrite (cstr_nul_free _ (print_record_nul_free id status d Hnul)).
  unfold print_record. rewrite (cstr_nul_free d Hnul). cbn [app].
  rewrite scan_int_print by (try assumption; reflexivity).
  change (Ascii.eqb ","%char ","%char) with true. cbv iota beta.
  rewrite scan_int_print by (try assumption; reflexivity).
  change (Ascii.eqb ","%char ","%char) with true. cbv iota beta.
  rewrite scan_not_nl_app by exact Hnl.
  destruct d as [|x d]; [congruence|reflexivity].
Qed.

Lemma scan_not_nl_no_nl s : ~ In NL (scan_not_nl s).
Proof.
  induction s as [|c s IH]; cbn; [tauto|].
  destruct (Ascii.eqb c NL) eqn:E; [tauto|].
  intros [H|H]; [subst; rewrite Ascii.eqb_refl in E; discriminate|tauto].
Qed.

Lemma scan_not_nl_incl s x : In x (scan_not_nl s) -> In x s.
Proof.
  induction s as [|c s IH]; cbn; [tauto|].
  destruct (Ascii.eqb c NL); cbn; [tauto|]. intros [H|H]; auto.
Qed.

Lemma cstr_incl s x : In x (cstr s) -> In x s.
Proof.
  induction s as [|c s IH]; cbn; [tauto|].
  destruct (Ascii.eqb c NUL); cbn; [tauto|]. intros [H|H]; auto.
Qed.

Lemma cstr_nul_free_out s : nul_free (cstr s).
Proof.
  induction s as [|c s IH]; cbn; [intros []|].
  destruct (Ascii.eqb c NUL) eqn:E; [intros []|].
  intros [H|H]; [subst; rewrite Ascii.eqb_refl in E; discriminate|exact (IH H)].
Qed.

Lemma skip_space_suffix s : exists p, s = p ++ skip_space s.
Proof.
  induction s as [|c s IH]; cbn; [exists []; reflexivity|].
  destruct (isspace c).
  - destruct IH as [p Hp]. exists (c :: p). cbn. f_equal. exact Hp.
  - exists []; reflexivity.
Qed.

Lemma scan_digits_suffix acc s v r : scan_digits acc s = (v, r) -> exists p, s = p ++ r.
Proof.
  revert acc; induction s as [|c s IH]; intros acc; cbn.
  - intros H; injection H as _ <-. exists []; reflexivity.
  - destruct (isdigit c).
    + intros H. destruct (IH _ H) as [p Hp]. exists (c :: p). cbn. f_equal. exact Hp.
    + intros H; injection H as _ <-. exists []; reflexivity.
Qed.

Lemma scan_int_suffix s v r : scan_int s = Some (v, r) -> exists p, s = p ++ r.
Proof.
  unfold scan_int. destruct (skip_space_suffix s) as [p0 Hp0].
  destruct (skip_space s) as [|c s1] eqn:E; [discriminate|].
  assert (Hs2 : forall neg s2,
             (if Ascii.eqb c "-"%char then (true, s1)
              else if Ascii.eqb c "+"%char then (false, s1) else (false, c :: s1)) = (neg, s2) ->
             exists q, c :: s1 = q ++ s2).
  { intros neg s2. destruct (Ascii.eqb c "-"%char); [|destruct (Ascii.eqb c "+"%char)];
      intros H; injection H as _ <-; [exists [c]| exists [c] | exists []]; reflexivity. }
  destruct (if Ascii.eqb c "-"%char then (true, s1)
            else if Ascii.eqb c "+"%char then (false, s1) else (false, c :: s1))
    as [neg [|d s2]] eqn:E2; [discriminate|].
  destruct (Hs2 _ _ eq_refl) as [q Hq].
  destruct (isdigit d); [|discriminate].
  destruct (scan_digits 0 (d :: s2)) as [w r'] eqn:E3. intros H; injection H as _ <-.
  destruct (scan_digits_suffix _ _ _ _ E3) as [p Hp].
  exists (p0 ++ q ++ p). rewrite Hp0, Hq, Hp, !app_assoc. reflexivity.
Qed.

Lemma in_suffix {A} (x : A) p r s : s = p ++ r -> In x r -> In x s.
Proof. intros -> H. apply in_or_app; right; exact H. Qed.

(** What the record scan yields: a nonempty description without newline or
    NUL byte. *)
Lemma scan_record_description line id status d :
  scan_record line = Some (id, status, d) -> d <> [] /\ ~ In NL d /\ nul_free d.
Proof.
  unfold scan_record.
  destruct (scan_int (cstr line)) as [[i [|c1 r1]]|] eqn:E1; try discriminate.
  destruct (Ascii.eqb c1 ","%char); [|discriminate].
  destruct (scan_int r1) as [[s [|c2 r2]]|] eqn:E2; try discriminate.
  destruct (Ascii.eqb c2 ","%char); [|discriminate].
  destruct (scan_int_suffix _ _ _ E1) as [p1 Hp1].
  destruct (scan_int_suffix _ _ _ E2) as [p2 Hp2].
  pose proof (scan_not_nl_no_nl r2) as Hnl.
  assert (Hsub : forall x, In x (scan_not_nl r2) -> In x (cstr line)).
  { intros x Hx. apply scan_not_nl_incl in Hx.
    eapply in_suffix; [exact Hp1|]. right.
    eapply in_suffix; [exact Hp2|]. right. exact Hx. }
  destruct (scan_not_nl r2) as [|x d'] eqn:E3; [discriminate|].
  intros H; injection H as <- <- <-.
  split; [discriminate|split; [exact Hnl|]].
  intros Hin. apply (cstr_nul_free_out line). apply Hsub. exact Hin.
Qed.

Lemma fgets_take_line n c r :
  ~ In NL c -> (List.length c < n)%nat -> fgets_take n (c ++ NL :: r) = (c ++ [NL], r).
Proof.
  revert n; induction c as [|x c IH]; intros [|n] Hnl Hlen; cbn in Hlen; try lia.
  - cbn [app fgets_take]. rewrite Ascii.eqb_refl. reflexivity.
  - cbn [app fgets_take]. destruct (Ascii.eqb x NL) eqn:E.
    + apply Ascii.eqb_eq in E. subst. exfalso. apply Hnl. left; reflexivity.
    + rewrite IH; [reflexivity| |lia]. intros H. apply Hnl. right; exact H.
Qed.

Lemma fgets_lines_one_line c :
  ~ In NL c -> (List.length c < LINE_BUF - 1)%nat -> fgets_lines (c ++ [NL]) = [c ++ [NL]].
Proof.
  intros Hnl Hlen.
  transitivity (fgets_lines (List.concat [c ++ [NL]])).
  { cbn [List.concat]. rewrite app_nil_r. reflexivity. }
  apply fgets_lines_concat. cbn [read_back List.concat].
  split; [intros H; apply app_eq_nil in H as [_ H]; discriminate|].
  split; [|exact I]. rewrite app_nil_r.
  apply fgets_take_line; assumption.
Qed.

Lemma fold_right_max_shift m k l :
  fold_right Z.max (Z.max m k) l = Z.max k (fold_right Z.max m l).
Proof. induction l as [|x l IH]; cbn; [lia|rewrite IH; lia]. Qed.

Lemma fold_next_id_step lines m :
  fold_left next_id_step lines m =
  fold_right Z.max m
    (flat_map (fun line => match scan_id line with Some k => [k] | None => [] end) lines).
Proof.
  revert m; induction lines as [|l lines IH]; intros m; [reflexivity|].
  cbn [fold_left flat_map]. unfold next_id_step at 2.
  destruct (scan_id l) as [k|]; cbn [app fold_right]; rewrite IH; [|reflexivity].
  rewrite <- fold_right_max_shift. f_equal.
  destruct (Z.gtb_spec k m); lia.
Qed.

Lemma getNextTaskId_max f :
  getNextTaskId (Some f) = (fold_right Z.max 0%Z (leading_ids f) + 1)%Z.
Proof. cbn [getNextTaskId]. rewrite fold_next_id_step. reflexivity. Qed.

Lemma fold_max_bounds l :
  (0 <= fold_right Z.max 0%Z l)%Z /\ Forall (fun k => k <= fold_right Z.max 0%Z l)%Z l /\
  (fold_right Z.max 0%Z l = 0%Z \/ In (fold_right Z.max 0%Z l) l).
Proof.
  induction l as [|x l (H0 & Hall & Hin)]; cbn [fold_right].
  - split; [lia|split; [constructor|left; reflexivity]].
  - split; [lia|split].
    + constructor; [lia|]. eapply Forall_impl; [|exact Hall]. cbn; lia.
    + destruct (Z.max_spec x (fold_right Z.max 0%Z l)) as [[Hlt ->] | [Hle ->]].
      * destruct Hin as [-> | Hin]; [left; reflexivity|right; right; exact Hin].
      * right; left; reflexivity.
Qed.

(** ** Lemmas about the copy loop and [main] *)

Lemma rewrite_loop_copy step lines :
  Forall (fun l => step l = (l, false)) lines ->
  rewrite_loop step lines false = (List.concat lines, false).
Proof.
  intros H. rewrite rewrite_loop_spec. f_equal.
  - f_equal. induction H as [|l lines Hl _ IH]; [reflexivity|].
    cbn [map]. rewrite Hl, IH. reflexivity.
  - cbn [orb]. induction H as [|l lines Hl _ IH]; [reflexivity|].
    cbn [existsb]. rewrite Hl, IH. reflexivity.
Qed.

Lemma main_done a st :
  main [s2l "done"; a] st =
  let taskId := atoi a in
  if (taskId <=? 0)%Z then (1%Z, st, InvalidTaskId)
  else let '(st', r) := modifyTaskStatus st taskId true in (0%Z, st', StatusChanged taskId r).
Proof. reflexivity. Qed.

Lemma main_pending a st :
  main [s2l "pending"; a] st =
  let taskId := atoi a in
  if (taskId <=? 0)%Z then (1%Z, st, InvalidTaskId)
  else let '(st', r) := modifyTaskStatus st taskId false in (0%Z, st', StatusChanged taskId r).
Proof. reflexivity. Qed.

Lemma main_delete a st :
  main [s2l "delete"; a] st =
  let taskId := atoi a in
  if (taskId <=? 0)%Z then (1%Z, st, InvalidTaskId)
  else let '(st', r) := deleteTask st taskId in (0%Z, st', Deleted taskId r).
Proof. reflexivity. Qed.

Lemma modify_not_found f taskId complete :
  nul_free f ->
  Forall (fun l => match scan_record l with Some (k, _, _) => k <> taskId | None => True end)
         (fgets_lines f) ->
  modifyTaskStatus (Some f) taskId complete = (Some f, TaskNotFound).
Proof.
  intros Hnul Hall. cbn [modifyTaskStatus].
  rewrite rewrite_loop_copy; [rewrite concat_fgets_lines; reflexivity|].
  rewrite Forall_forall in Hall |- *. intros l Hl. specialize (Hall l Hl).
  unfold modify_line. rewrite (cstr_nul_free l (nul_free_line f l Hnul Hl)).
  destruct (scan_record l) as [[[k st] d]|]; [|reflexivity].
  destruct (Z.eqb_spec k taskId); [contradiction|reflexivity].
Qed.

Lemma delete_not_found f taskId :
  nul_free f -> Forall (fun l => scan_id l <> Some taskId) (fgets_lines f) ->
  deleteTask (Some f) taskId = (Some f, TaskNotFound).
Proof.
  intros Hnul Hall. cbn [deleteTask].
  rewrite rewrite_loop_copy; [rewrite concat_fgets_lines; reflexivity|].
  rewrite Forall_forall in Hall |- *. intros l Hl. specialize (Hall l Hl).
  unfold delete_line. rewrite (cstr_nul_free l (nul_free_line f l Hnul Hl)).
  destruct (scan_id l) as [k|]; [|reflexivity].
  destruct (Z.eqb_spec k taskId); [subst; contradiction|reflexivity].
Qed.

Lemma fgets_take_stable n c R1 R2 :
  fgets_take n (c ++ R1) = (c, R1) -> (R1 = [] <-> R2 = []) ->
  fgets_take n (c ++ R2) = (c, R2).
Proof.
  revert n; induction c as [|x c IH]; intros n H Hiff.
  - cbn [app] in *. destruct n as [|n]; [reflexivity|].
    destruct R1 as [|y R1].
    + assert (R2 = []) as -> by (apply Hiff; reflexivity). reflexivity.
    + exfalso. cbn in H. destruct (Ascii.eqb y NL); [discriminate|].
      destruct (fgets_take n R1); discriminate.
  - destruct n as [|n]; [cbn in H; discriminate|].
    cbn [app fgets_take] in *. destruct (Ascii.eqb x NL).
    + injection H as Hc _. subst c. reflexivity.
    + destruct (fgets_take n (c ++ R1)) as [l r] eqn:E.
      injection H as -> ->. rewrite (IH n E Hiff). reflexivity.
Qed.

Lemma concat_nil_iff (xs : list (list ascii)) :
  Forall (fun x => x <> []) xs -> (List.concat xs = [] <-> xs = []).
Proof.
  intros H; split; [|intros ->; reflexivity].
  destruct H as [|x xs Hx _]; [reflexivity|].
  cbn. intros E. apply app_eq_nil in E as [E _]. contradiction.
Qed.

Lemma read_back_nonempty cs : read_back cs -> Forall (fun x => x <> []) cs.
Proof.
  induction cs as [|c cs IH]; cbn; [constructor|].
  intros (H1 & _ & H3). constructor; auto.
Qed.

Lemma read_back_map (g : list ascii -> list ascii) ls :
  read_back ls -> (forall l, In l ls -> line_shape l (g l)) -> read_back (map g ls).
Proof.
  induction ls as [|l ls IH]; intros Hrb Hg; [exact I|].
  destruct Hrb as (Hne & Htake & Hrest).
  assert (Hrest' : read_back (map g ls)).
  { apply IH; [exact Hrest|]. intros l' Hl'. apply Hg. right; exact Hl'. }
  assert (Hnes : Forall (fun x => x <> []) (map g ls)) by (apply read_back_nonempty; exact Hrest').
  cbn [map read_back].
  destruct (Hg l (or_introl eq_refl)) as [Heq | (c & Heq & Hnl & Hlen)]; rewrite Heq.
  - split; [exact Hne|split; [|exact Hrest']].
    apply (fgets_take_stable _ _ _ _ Htake).
    rewrite (concat_nil_iff _ (read_back_nonempty _ Hrest)), (concat_nil_iff _ Hnes).
    destruct ls; cbn; split; congruence.
  - split; [intros E; apply app_eq_nil in E as [_ E]; discriminate|split; [|exact Hrest']].
    rewrite <- app_assoc. cbn [app]. apply fgets_take_line; assumption.
Qed.

Lemma modify_line_shape taskId complete l :
  nul_free l ->
  (forall id st d, scan_record l = Some (id, st, d) ->
     int_range id /\ int_range st /\ (List.length d < MAX_DESCRIPTION_LEN)%nat) ->
  line_shape l (fst (modify_line taskId complete l)).
Proof.
  intros Hnul Hfit. unfold modify_line, line_shape.
  destruct (scan_record l) as [[[id st] d]|] eqn:E;
    [|left; apply cstr_nul_free; exact Hnul].
  destruct (id =? taskId)%Z; [|left; apply cstr_nul_free; exact Hnul].
  right. destruct (scan_record_description _ _ _ _ E) as (Hne & Hnl & Hnd).
  destruct (Hfit _ _ _ eq_refl) as (Hid & _ & Hlen).
  exists (print_int id ++ [","%char] ++ print_int (if complete then 1 else 0)
          ++ [","%char] ++ d).
  split; [unfold print_record; rewrite (cstr_nul_free d Hnd), <- !app_assoc; reflexivity|].
  split.
  - intros H. rewrite !in_app_iff in H.
    destruct H as [H|[H|[H|[H|H]]]].
    + exact (print_int_no_nl _ H).
    + destruct H as [H|[]]; discriminate.
    + exact (print_int_no_nl _ H).
    + destruct H as [H|[]]; discriminate.
    + exact (Hnl H).
  - assert (Hb : List.length (print_int (if complete then 1 else 0)) = 1%nat)
      by (destruct complete; reflexivity).
    pose proof (print_int_length id Hid).
    rewrite !length_app, Hb. cbn [List.length].
    unfold LINE_BUF, MAX_DESCRIPTION_LEN in *. lia.
Qed.

Lemma modify_line_idem taskId complete l :
  nul_free l ->
  fst (modify_line taskId complete (fst (modify_line taskId complete l))) =
  fst (modify_line taskId complete l).
Proof.
  intros Hnul. assert (Hc : cstr l = l) by (apply cstr_nul_free; exact Hnul).
  destruct (scan_record l) as [[[id st] d]|] eqn:E.
  - destruct (Z.eqb_spec id taskId) as [->|Hne].
    + assert (Hm : modify_line taskId complete l =
                   (print_record taskId (if complete then 1 else 0) d, true))
        by (unfold modify_line; rewrite E, Z.eqb_refl; reflexivity).
      rewrite Hm. cbn [fst].
      destruct (scan_record_description _ _ _ _ E) as (Hne & Hnl & Hnd).
      destruct (scan_record_range _ _ _ _ E) as [Hi _].
      pose proof (status_range complete) as Hs.
      unfold modify_line. rewrite scan_record_print by assumption.
      rewrite Z.eqb_refl. reflexivity.
    + assert (Hm : modify_line taskId complete l = (l, false)).
      { unfold modify_line. rewrite E. destruct (Z.eqb_spec id taskId); [contradiction|].
        rewrite Hc. reflexivity. }
      rewrite Hm. cbn [fst]. rewrite Hm. reflexivity.
  - assert (Hm : modify_line taskId complete l = (l, false))
      by (unfold modify_line; rewrite E, Hc; reflexivity).
    rewrite Hm. cbn [fst]. rewrite Hm. reflexivity.
Qed.


(** ** Lemmas for appending, filtering and mapping the read lines *)

Lemma fgets_take_stable_gen n c R1 R2 :
  fgets_take n (c ++ R1) = (c, R1) ->
  R1 <> [] \/ R2 = [] \/ (exists c', c = c' ++ [NL]) ->
  fgets_take n (c ++ R2) = (c, R2).
Proof.
  revert n; induction c as [|x c IH]; intros n H Hc.
  - cbn [app] in *. destruct n as [|n]; [reflexivity|].
    destruct R1 as [|y R1].
    + destruct Hc as [Hc | [-> | ([|? ?] & Hc)]]; [congruence|reflexivity|discriminate|].
      apply (f_equal (@List.length ascii)) in Hc. rewrite length_app in Hc. cbn in Hc. lia.
    + exfalso. cbn in H. destruct (Ascii.eqb y NL); [discriminate|].
      destruct (fgets_take n R1); discriminate.
  - destruct n as [|n]; [cbn in H; discriminate|].
    cbn [app fgets_take] in *. destruct (Ascii.eqb x NL) eqn:Ex.
    + injection H as Hc' _. subst c. reflexivity.
    + destruct (fgets_take n (c ++ R1)) as [l r] eqn:E.
      injection H as -> ->. rewrite (IH n E); [reflexivity|].
      destruct Hc as [Hc | [Hc | ([|y c'] & Hc)]]; [left; exact Hc|right; left; exact Hc| |].
      * injection Hc as -> _. rewrite Ascii.eqb_refl in Ex. discriminate.
      * injection Hc as _ ->. right; right. exists c'. reflexivity.
Qed.

Lemma ends_line_app_inv c R : ends_line (c ++ R) -> R <> [] -> ends_line R.
Proof.
  intros [H | (f' & H)] Hne.
  - apply app_eq_nil in H as [_ H]. contradiction.
  - right. destruct R as [|y R] using rev_ind; [congruence|].
    rewrite app_assoc in H. apply app_inj_tail in H as [_ ->]. exists R. reflexivity.
Qed.

Lemma read_back_app ls1 ls2 :
  read_back ls1 -> read_back ls2 -> ends_line (List.concat ls1) -> read_back (ls1 ++ ls2).
Proof.
  induction ls1 as [|c rest IH]; intros H1 H2 Hend; [exact H2|].
  destruct H1 as (Hne & Htake & Hrest). cbn [List.concat] in Hend.
  cbn [app read_back]. split; [exact Hne|split].
  - rewrite concat_app. apply (fgets_take_stable_gen _ _ _ _ Htake).
    destruct (List.concat rest) as [|y r] eqn:Er; [|left; discriminate].
    right; right. rewrite app_nil_r in Hend.
    destruct Hend as [-> | Hc]; [congruence|exact Hc].
  - apply IH; [exact Hrest|exact H2|].
    destruct (List.concat rest) as [|y r] eqn:Er; [left; reflexivity|].
    apply (ends_line_app_inv c); [exact Hend|discriminate].
Qed.

Lemma fgets_lines_app f r :
  ends_line f -> fgets_lines (f ++ r) = fgets_lines f ++ fgets_lines r.
Proof.
  intros Hend.
  rewrite <- (fgets_lines_concat (fgets_lines f ++ fgets_lines r)).
  - rewrite concat_app, !concat_fgets_lines. reflexivity.
  - apply read_back_app; try apply read_back_fgets_lines.
    rewrite concat_fgets_lines. exact Hend.
Qed.

Lemma read_back_filter (p : list ascii -> bool) ls : read_back ls -> read_back (filter p ls).
Proof.
  induction ls as [|c rest IH]; intros H; [exact I|].
  destruct H as (Hne & Htake & Hrest). cbn [filter].
  destruct (p c); [|apply IH; exact Hrest].
  cbn [read_back]. split; [exact Hne|split; [|apply IH; exact Hrest]].
  apply (fgets_take_stable_gen _ _ _ _ Htake).
  destruct (List.concat (filter p rest)) as [|y r] eqn:Ef; [right; left; reflexivity|].
  left. intros Hr. apply (concat_nil_iff _ (read_back_nonempty _ Hrest)) in Hr.
  subst rest. discriminate.
Qed.

Lemma print_record_line id status d :
  (List.length (print_int status) = 1)%nat -> int_range id ->
  ~ In NL d -> nul_free d -> (List.length d < MAX_DESCRIPTION_LEN)%nat ->
  fgets_lines (print_record id status d) = [print_record id status d].
Proof.
  intros Hst Hid Hnl Hnd Hlen. unfold print_record. rewrite (cstr_nul_free d Hnd).
  replace (print_int id ++ [","%char] ++ print_int status ++ [","%char] ++ d ++ [NL])
    with ((print_int id ++ [","%char] ++ print_int status ++ [","%char] ++ d) ++ [NL])
    by (rewrite <- !app_assoc; reflexivity).
  apply fgets_lines_one_line.
  - intros H. rewrite !in_app_iff in H.
    destruct H as [H|[H|[H|[H|H]]]];
      try exact (print_int_no_nl _ H); try exact (Hnl H); destruct H as [H|[]]; discriminate.
  - pose proof (print_int_length id Hid). rewrite !length_app, Hst. cbn [List.length].
    unfold LINE_BUF, MAX_DESCRIPTION_LEN in *. lia.
Qed.

Lemma scan_record_scan_id l id status d :
  scan_record l = Some (id, status, d) -> scan_id l = Some id.
Proof.
  unfold scan_record, scan_id.
  destruct (scan_int (cstr l)) as [[i [|c1 r1]]|]; try discriminate.
  destruct (Ascii.eqb c1 ","%char); [|discriminate].
  destruct (scan_int r1) as [[s [|c2 r2]]|]; try discriminate.
  destruct (Ascii.eqb c2 ","%char); [|discriminate].
  destruct (scan_not_nl r2); [discriminate|]. intros H; injection H as -> _ _. reflexivity.
Qed.

Lemma scan_id_print_record id status d :
  int_range id -> scan_id (print_record id status d) = Some id.
Proof.
  intros Hid. unfold scan_id.
  assert (Hn : nul_free (print_record id status d)).
  { unfold print_record. repeat apply nul_free_app; try apply print_int_nul_free;
      try apply cstr_nul_free_out; intros [H|[]]; discriminate. }
  rewrite (cstr_nul_free _ Hn).
  unfold print_record. rewrite scan_int_print by (try assumption; reflexivity). reflexivity.
Qed.

Lemma modify_line_found taskId complete l :
  snd (modify_line taskId complete l) = true <->
  exists status d, scan_record l = Some (taskId, status, d).
Proof.
  unfold modify_line. destruct (scan_record l) as [[[id st] d]|].
  - destruct (Z.eqb_spec id taskId) as [->|Hne]; cbn [snd].
    + split; [intros _; eauto|reflexivity].
    + split; [discriminate|]. intros (s' & d' & H). injection H as -> _ _. congruence.
  - cbn [snd]. split; [discriminate|]. intros (s' & d' & H). discriminate.
Qed.

Lemma list_line_modify taskId complete l :
  nul_free l ->
  list_line (fst (modify_line taskId complete l)) =
  map (update_status taskId complete) (list_line l).
Proof.
  intros Hnul. assert (Hc : cstr l = l) by (apply cstr_nul_free; exact Hnul).
  unfold modify_line. unfold list_line at 2.
  destruct (scan_record l) as [[[id st] d]|] eqn:E.
  - cbn [map update_status]. destruct (Z.eqb_spec id taskId) as [->|Hne]; cbn [fst].
    + destruct (scan_record_description _ _ _ _ E) as (Hne & Hnl & Hnd).
      destruct (scan_record_range _ _ _ _ E) as [Hi _].
      pose proof (status_range complete) as Hs.
      unfold list_line. rewrite scan_record_print by assumption. reflexivity.
    + rewrite Hc. unfold list_line. rewrite E. reflexivity.
  - cbn [fst map]. rewrite Hc. unfold list_line. rewrite E. reflexivity.
Qed.


Lemma delete_store f taskId :
  nul_free f ->
  fst (deleteTask (Some f) taskId)
  = Some (List.concat (filter (delete_keep taskId) (fgets_lines f))).
Proof.
  intros Hnul. cbn [deleteTask]. rewrite rewrite_loop_spec. cbn [fst]. f_equal.
  assert (Hall : forall l, In l (fgets_lines f) -> nul_free l)
    by (intros l Hl; eapply nul_free_line; eauto).
  induction (fgets_lines f) as [|l ls IH]; [reflexivity|].
  cbn [map filter List.concat]. rewrite IH by (intros; apply Hall; right; assumption).
  unfold delete_line, delete_keep.
  rewrite (cstr_nul_free l (Hall l (or_introl eq_refl))).
  destruct (scan_id l) as [k|]; [|reflexivity].
  destruct (k =? taskId)%Z; reflexivity.
Qed.

Lemma list_line_delete_keep taskId l :
  filter (fun r => negb (fst (fst r) =? taskId)%Z) (list_line l)
  = if delete_keep taskId l then list_line l else [].
Proof.
  unfold list_line, delete_keep.
  destruct (scan_record l) as [[[k st] d]|] eqn:E.
  - rewrite (scan_record_scan_id _ _ _ _ E). cbn [filter fst].
    destruct (k =? taskId)%Z; reflexivity.
  - destruct (scan_id l); [destruct (_ =? _)%Z|]; reflexivity.
Qed.

Lemma skip_space_spaces ws s :
  Forall (fun c => isspace c = true) ws -> skip_space (ws ++ s) = skip_space s.
Proof.
  induction 1 as [|c ws Hc _ IH]; [reflexivity|].
  cbn [app skip_space]. rewrite Hc. exact IH.
Qed.


Lemma scan_id_modify taskId complete l :
  nul_free l -> scan_id (fst (modify_line taskId complete l)) = scan_id l.
Proof.
  intros Hnul. unfold modify_line.
  destruct (scan_record l) as [[[id st] d]|] eqn:E;
    [destruct (id =? taskId)%Z|]; cbn [fst];
    try (rewrite (cstr_nul_free l Hnul); reflexivity).
  rewrite scan_id_print_record by exact (proj1 (scan_record_range _ _ _ _ E)).
  symmetry. exact (scan_record_scan_id _ _ _ _ E).
Qed.


(** ** Physical lines and the [fgets] buffers *)

Lemma concat_split_lines s : List.concat (split_lines s) = s.
Proof.
  induction s as [|c s IH]; [reflexivity|]. cbn [split_lines].
  destruct (Ascii.eqb c NL) eqn:E.
  - cbn [List.concat app]. rewrite IH. apply Ascii.eqb_eq in E. subst. reflexivity.
  - destruct (split_lines s) as [|l ls]; cbn [List.concat app] in *; rewrite <- IH; reflexivity.
Qed.

Lemma split_lines_line c r :
  ~ In NL c -> split_lines (c ++ NL :: r) = (c ++ [NL]) :: split_lines r.
Proof.
  induction c as [|x c IH]; intros Hnl.
  - cbn [app split_lines]. rewrite Ascii.eqb_refl. reflexivity.
  - cbn [app split_lines]. destruct (Ascii.eqb x NL) eqn:E.
    + apply Ascii.eqb_eq in E. subst. exfalso. apply Hnl. left; reflexivity.
    + rewrite IH by (intros H; apply Hnl; right; exact H). reflexivity.
Qed.

Lemma split_lines_last c : c <> [] -> ~ In NL c -> split_lines c = [c].
Proof.
  induction c as [|x c IH]; intros Hne Hnl; [congruence|].
  cbn [split_lines]. destruct (Ascii.eqb x NL) eqn:E.
  - apply Ascii.eqb_eq in E. subst. exfalso. apply Hnl. left; reflexivity.
  - destruct c as [|y c]; [reflexivity|].
    rewrite IH by (discriminate || (intros H; apply Hnl; right; exact H)). reflexivity.
Qed.

Lemma first_nl s : (exists c r, ~ In NL c /\ s = c ++ NL :: r) \/ ~ In NL s.
Proof.
  induction s as [|x s IH]; [right; intros []|].
  destruct (Ascii.eqb x NL) eqn:E.
  - apply Ascii.eqb_eq in E. subst. left. exists [], s. split; [intros []|reflexivity].
  - apply Ascii.eqb_neq in E. destruct IH as [(c & r & Hc & ->) | Hs].
    + left. exists (x :: c), r. split; [|reflexivity].
      intros [H|H]; [congruence|contradiction].
    + right. intros [H|H]; [congruence|contradiction].
Qed.

Lemma fgets_take_eof n c : ~ In NL c -> (List.length c <= n)%nat -> fgets_take n c = (c, []).
Proof.
  revert n; induction c as [|x c IH]; intros [|n] Hnl Hlen; cbn in Hlen; try lia;
    [reflexivity|reflexivity|].
  cbn [fgets_take]. destruct (Ascii.eqb x NL) eqn:E.
  - apply Ascii.eqb_eq in E. subst. exfalso. apply Hnl. left; reflexivity.
  - rewrite IH; [reflexivity| |lia]. intros H; apply Hnl; right; exact H.
Qed.

Lemma read_back_split_lines s : lines_fit s -> read_back (split_lines s).
Proof.
  remember (List.length s) as n eqn:Hn. revert s Hn.
  induction n as [n IH] using lt_wf_ind. intros s Hn Hfit.
  destruct (first_nl s) as [(c & r & Hc & ->) | Hs].
  - unfold lines_fit in Hfit. rewrite split_lines_line in * by exact Hc.
    inversion Hfit as [|? ? Hlen Hrest]; subst.
    cbn [read_back]. split; [intros E; apply app_eq_nil in E as [_ E]; discriminate|split].
    + rewrite concat_split_lines, <- app_assoc. cbn [app].
      apply fgets_take_line; [exact Hc|]. rewrite length_app in Hlen. cbn [List.length] in Hlen. lia.
    + apply (IH (List.length r)); [|reflexivity|exact Hrest].
      rewrite length_app. cbn. lia.
  - destruct s as [|x s]; [exact I|].
    unfold lines_fit in Hfit. rewrite split_lines_last in * by (discriminate || exact Hs).
    inversion Hfit as [|? ? Hlen _]; subst.
    cbn [read_back List.concat]. split; [discriminate|split; [|exact I]].
    rewrite app_nil_r. apply fgets_take_eof; assumption.
Qed.

(** When every physical line fits the buffer, the [fgets] loop reads the
    file line by line. *)
Lemma fgets_lines_split s : lines_fit s -> fgets_lines s = split_lines s.
Proof.
  intros Hfit. rewrite <- (concat_split_lines s) at 1.
  apply fgets_lines_concat, read_back_split_lines, Hfit.
Qed.

Lemma in_split_lines_in x c s : In c (split_lines s) -> In x c -> In x s.
Proof.
  intros Hc Hx. rewrite <- (concat_split_lines s). apply in_concat. eauto.
Qed.

Lemma lines_fit_check f :
  forallb (fun l => (List.length l <=? LINE_BUF - 1)%nat) (split_lines f) = true -> lines_fit f.
Proof.
  intros H. apply Forall_forall. intros l Hl. rewrite forallb_forall in H.
  apply Nat.leb_le, H, Hl.
Qed.

Lemma no_id_overflow_check f :
  forallb (fun k => (k <? INT_MAX)%Z) (leading_ids f) = true -> no_id_overflow f.
Proof.
  intros H. apply Forall_forall. intros k Hk. rewrite forallb_forall in H.
  apply Z.ltb_lt, H, Hk.
Qed.

Lemma next_id_range f :
  no_id_overflow f -> (1 <= getNextTaskId (Some f) <= INT_MAX)%Z.
Proof.
  intros Hov. rewrite getNextTaskId_max.
  destruct (fold_max_bounds (leading_ids f)) as (H0 & _ & Hin).
  destruct Hin as [-> | Hin]; [unfold INT_MAX; lia|].
  unfold no_id_overflow in Hov. rewrite Forall_forall in Hov. specialize (Hov _ Hin). lia.
Qed.

Lemma INT_MAX_range z : (1 <= z <= INT_MAX)%Z -> int_range z.
Proof. unfold INT_MAX, int_range. lia. Qed.

Lemma print_record_line_fit id status d :
  ~ In NL d -> nul_free d -> (List.length (print_record id status d) <= LINE_BUF - 1)%nat ->
  fgets_lines (print_record id status d) = [print_record id status d].
Proof.
  intros Hnl Hnd Hlen. unfold print_record in *. rewrite (cstr_nul_free d Hnd) in *.
  replace (print_int id ++ [","%char] ++ print_int status ++ [","%char] ++ d ++ [NL])
    with ((print_int id ++ [","%char] ++ print_int status ++ [","%char] ++ d) ++ [NL]) in *
    by (rewrite <- !app_assoc; reflexivity).
  apply fgets_lines_one_line.
  - intros H. rewrite !in_app_iff in H.
    destruct H as [H|[H|[H|[H|H]]]];
      try exact (print_int_no_nl _ H); try exact (Hnl H); destruct H as [H|[]]; discriminate.
  - rewrite length_app in Hlen. cbn [List.length] in Hlen. lia.
Qed.

(** * The claims *)

(** ** Round trip *)

(** C6: from an absent or empty store file, [Add("buy milk")] followed by
    [List()] yields exactly one record: id 1, status 0 (shown as pending),
    description "buy milk". *)
Theorem add_then_list_round_trip :
  listTasks (fst (addTask None (s2l "buy milk"))) = Listed [(1%Z, 0%Z, s2l "buy milk")] /\
  listTasks (fst (addTask (Some []) (s2l "buy milk"))) = Listed [(1%Z, 0%Z, s2l "buy milk")] /\
  status_text_of 0 = PENDING.
Proof. split; [|split]; vm_compute; reflexivity. Qed.

(** ** Accepted status values *)

(** C10 (amended): a line "id,s,description" whose numbers are [int]s,
    whose description fits the 256-byte buffer and which fits the line
    buffer is a record for every [s]: [List()] on a file holding it yields
    it and shows it as DONE exactly when [s = 1] (PENDING otherwise), and
    [SetStatus] treats it as a record: it rewrites it with the new status
    when the id matches and copies it unchanged otherwise. *)
Theorem any_status_is_well_formed id status d :
  int_range id -> int_range status ->
  d <> [] -> ~ In NL d -> nul_free d -> (List.length d < MAX_DESCRIPTION_LEN)%nat ->
  (List.length (print_record id status d) <= LINE_BUF - 1)%nat ->
  listTasks (Some (print_record id status d)) = Listed [(id, status, d)] /\
  (status_text_of status = DONE <-> status = 1%Z) /\
  (forall taskId complete,
      modifyTaskStatus (Some (print_record id status d)) taskId complete =
      if (id =? taskId)%Z
      then (Some (print_record id (if complete then 1 else 0) d), TaskFound)
      else (Some (print_record id status d), TaskNotFound)).
Proof.
  intros Hid Hst Hne Hnl Hnul _ Hfit.
  pose proof (scan_record_print id status d Hid Hst Hne Hnl Hnul) as Hs.
  pose proof (print_record_line_fit id status d Hnl Hnul Hfit) as Hl.
  split; [|split].
  - cbn [listTasks]. rewrite Hl. cbn [flat_map]. unfold list_line. rewrite Hs. reflexivity.
  - unfold status_text_of. destruct (Z.eqb_spec status 1); split; congruence.
  - intros taskId complete. cbn [modifyTaskStatus]. rewrite Hl, rewrite_loop_spec.
    assert (Hm : modify_line taskId complete (print_record id status d) =
                 if (id =? taskId)%Z
                 then (print_record id (if complete then 1 else 0) d, true)
                 else (print_record id status d, false)).
    { unfold modify_line. rewrite Hs.
      rewrite (cstr_nul_free _ (print_record_nul_free id status d Hnul)). reflexivity. }
    cbn [map List.concat existsb orb]. rewrite Hm.
    destruct (id =? taskId)%Z; cbn [fst snd]; rewrite app_nil_r; reflexivity.
Qed.

Lemma any_status_is_well_formed_witness :
  status_text_of 7 = PENDING /\
  listTasks (Some (print_record 3 7 (s2l "x"))) = Listed [(3%Z, 7%Z, s2l "x")].
Proof.
  assert (H1 : int_range 3) by (unfold int_range; lia).
  assert (H2 : int_range 7) by (unfold int_range; lia).
  assert (H3 : s2l "x" <> []) by discriminate.
  assert (H4 : ~ In NL (s2l "x")) by (intros [H|[]]; discriminate).
  assert (H5 : nul_free (s2l "x")) by (apply nul_free_check; reflexivity).
  assert (H6 : (List.length (s2l "x") < MAX_DESCRIPTION_LEN)%nat) by (vm_compute; lia).
  assert (H7 : (List.length (print_record 3 7 (s2l "x")) <= LINE_BUF - 1)%nat)
    by (vm_compute; lia).
  destruct (any_status_is_well_formed 3 7 (s2l "x") H1 H2 H3 H4 H5 H6 H7) as (Hl & _ & _).
  split; [reflexivity|exact Hl].
Defined.

(** C10: [%d] stores the status numeral 4294967297 in an [int] as 1, so
    the line "3,4294967297,x" is shown as DONE although its status is not
    1. *)
Lemma big_status_shown_done :
  listTasks (Some (s2l "3,4294967297,x" ++ [NL])) = Listed [(3%Z, 1%Z, s2l "x")] /\
  status_text_of 1 = DONE.
Proof. split; vm_compute; reflexivity. Qed.

(** ** Empty descriptions *)

(** C9: a line "id,status," followed by a newline (empty description) is
    malformed: [List()] yields no record for it and [SetStatus] on its id
    neither finds nor changes it. *)
Theorem empty_description_is_malformed id status :
  int_range id -> int_range status ->
  let line := print_int id ++ [","%char] ++ print_int status ++ [","%char] ++ [NL] in
  scan_record line = None /\ list_line line = [] /\
  (forall taskId complete, modify_line taskId complete line = (line, false)) /\
  listTasks (Some line) = Listed [] /\
  (forall complete, modifyTaskStatus (Some line) id complete = (Some line, TaskNotFound)).
Proof.
  intros Hid Hst line.
  assert (Hnul : nul_free line).
  { unfold line. repeat apply nul_free_app; try apply print_int_nul_free;
      intros [H|[]]; discriminate. }
  assert (Hscan : scan_record line = None).
  { unfold scan_record. rewrite (cstr_nul_free _ Hnul). unfold line. cbn [app].
    rewrite scan_int_print by (try assumption; reflexivity).
    change (Ascii.eqb ","%char ","%char) with true. cbv iota beta.
    rewrite scan_int_print by (try assumption; reflexivity). reflexivity. }
  assert (Hmod : forall taskId complete, modify_line taskId complete line = (line, false)).
  { intros taskId complete. unfold modify_line. rewrite Hscan, (cstr_nul_free _ Hnul).
    reflexivity. }
  assert (Hlines : fgets_lines line = [line]).
  { unfold line. rewrite !app_assoc. apply fgets_lines_one_line.
    - rewrite <- !app_assoc. intros H. repeat (apply in_app_iff in H as [H|H]);
        try (apply print_int_no_nl in H; exact H); destruct H as [H|[]]; discriminate.
    - rewrite !length_app. pose proof (print_int_length id Hid).
      pose proof (print_int_length status Hst). cbn [List.length]. unfold LINE_BUF.
      unfold MAX_DESCRIPTION_LEN. lia. }
  split; [exact Hscan|split; [unfold list_line; rewrite Hscan; reflexivity|split; [exact Hmod|split]]].
  - cbn [listTasks]. rewrite Hlines. cbn. unfold list_line. rewrite Hscan. reflexivity.
  - intros complete. cbn [modifyTaskStatus]. rewrite Hlines. cbn [rewrite_loop].
    rewrite Hmod. cbn. rewrite app_nil_r. reflexivity.
Qed.

Lemma empty_description_is_malformed_witness :
  int_range 4 /\ int_range 0 /\
  listTasks (Some (s2l "4,0," ++ [NL])) = Listed [] /\
  modifyTaskStatus (Some (s2l "4,0," ++ [NL])) 4 true = (Some (s2l "4,0," ++ [NL]), TaskNotFound).
Proof.
  assert (H4 : int_range 4) by (unfold int_range; lia).
  assert (H0 : int_range 0) by (unfold int_range; lia).
  destruct (empty_description_is_malformed 4 0 H4 H0) as (_ & _ & _ & Hl & Hm).
  split; [exact H4|split; [exact H0|split; [exact Hl|exact (Hm true)]]].
Defined.

(** ** Next id *)

(** C3 (amended): for a file whose lines fit the line buffer and whose
    leading ids stay below [INT_MAX], [NextId] is larger than the leading
    integer (read by [sscanf("%d,")] into an [int]) of every line, malformed
    lines included, and it is 1 or one more than the leading integer of some
    line; a file in which no line starts with an integer yields 1. *)
Theorem next_id_counts_leading_integers f :
  lines_fit f -> no_id_overflow f ->
  (forall l k, In l (split_lines f) -> scan_id l = Some k -> (k < getNextTaskId (Some f))%Z) /\
  (getNextTaskId (Some f) = 1%Z \/
   exists l, In l (split_lines f) /\ scan_id l = Some (getNextTaskId (Some f) - 1)%Z) /\
  (Forall (fun l => scan_id l = None) (split_lines f) -> getNextTaskId (Some f) = 1%Z).
Proof.
  intros Hfit _. rewrite getNextTaskId_max.
  assert (Hlead : leading_ids f =
            flat_map (fun l => match scan_id l with Some k => [k] | None => [] end)
                     (split_lines f))
    by (unfold leading_ids; rewrite fgets_lines_split by exact Hfit; reflexivity).
  destruct (fold_max_bounds (leading_ids f)) as (H0 & Hall & Hin).
  split; [|split].
  - intros l k Hl Hk. rewrite Forall_forall in Hall.
    assert (Hk' : In k (leading_ids f)).
    { rewrite Hlead. apply in_flat_map. exists l. rewrite Hk. split; [exact Hl|left; reflexivity]. }
    specialize (Hall k Hk'). lia.
  - destruct Hin as [Hz | Hin]; [left; lia|right].
    rewrite Hlead in Hin at 2. apply in_flat_map in Hin as (l & Hl & Hk).
    exists l. split; [exact Hl|].
    destruct (scan_id l); [destruct Hk as [Hk|[]]; rewrite Hk; f_equal; lia|destruct Hk].
  - intros Hnone. assert (Hnil : leading_ids f = []).
    { rewrite Hlead. clear -Hnone. induction Hnone as [|l ls Hl _ IH]; [reflexivity|].
      cbn [flat_map]. rewrite Hl. exact IH. }
    rewrite Hnil. reflexivity.
Qed.

Lemma next_id_counts_leading_integers_witness :
  (5 < getNextTaskId (Some (s2l "5" ++ [NL])))%Z.
Proof.
  assert (H1 : lines_fit (s2l "5" ++ [NL])) by (apply lines_fit_check; vm_compute; reflexivity).
  assert (H2 : no_id_overflow (s2l "5" ++ [NL]))
    by (apply no_id_overflow_check; vm_compute; reflexivity).
  destruct (next_id_counts_leading_integers _ H1 H2) as (Hlt & _ & _).
  apply (Hlt (s2l "5" ++ [NL])); [left; reflexivity|vm_compute; reflexivity].
Defined.

(** C3: the malformed line "5" (no status, no description) still counts:
    [NextId] is 6 for a file holding only that line. *)
Lemma next_id_malformed_line_counts :
  scan_record (s2l "5" ++ [NL]) = None /\ getNextTaskId (Some (s2l "5" ++ [NL])) = 6%Z.
Proof. split; vm_compute; reflexivity. Qed.

(** C4 (amended): when no parsed id reaches [INT_MAX], [NextId] is
    [max(0, parsed leading integers) + 1]: it is 1 exactly when the file is
    absent or every parsed leading integer is at most 0, and one plus the
    largest parsed id when some id is positive. *)
Theorem next_id_floor_at_one st :
  (forall f, st = Some f -> no_id_overflow f) ->
  (getNextTaskId st = 1%Z <->
   match st with
   | None => True
   | Some f => Forall (fun k => k <= 0)%Z (leading_ids f)
   end) /\
  (forall f, st = Some f -> forall k, In k (leading_ids f) -> (0 < k)%Z ->
     exists m, In m (leading_ids f) /\ Forall (fun j => j <= m)%Z (leading_ids f) /\
               getNextTaskId st = (m + 1)%Z).
Proof.
  intros _. split.
  - destruct st as [f|]; [|cbn; tauto].
    rewrite getNextTaskId_max.
    destruct (fold_max_bounds (leading_ids f)) as (H0 & Hall & Hin).
    split.
    + intros Heq. assert (Hm : fold_right Z.max 0%Z (leading_ids f) = 0%Z) by lia.
      rewrite Hm in Hall. exact Hall.
    + intros Hle. destruct Hin as [-> | Hin]; [reflexivity|].
      rewrite Forall_forall in Hle. specialize (Hle _ Hin). lia.
  - intros f -> k Hk Hpos. rewrite getNextTaskId_max.
    destruct (fold_max_bounds (leading_ids f)) as (H0 & Hall & Hin).
    exists (fold_right Z.max 0%Z (leading_ids f)).
    split; [|split; [exact Hall|reflexivity]].
    destruct Hin as [Hz | Hin]; [|exact Hin].
    rewrite Forall_forall in Hall. specialize (Hall k Hk). lia.
Qed.

Lemma next_id_floor_at_one_witness :
  getNextTaskId (Some (s2l "3,0,a" ++ [NL] ++ s2l "7,1,b" ++ [NL])) = 8%Z.
Proof.
  assert (Hov : forall f, Some (s2l "3,0,a" ++ [NL] ++ s2l "7,1,b" ++ [NL]) = Some f ->
                          no_id_overflow f).
  { intros f Hf. injection Hf as <-. apply no_id_overflow_check. vm_compute. reflexivity. }
  destruct (next_id_floor_at_one (Some (s2l "3,0,a" ++ [NL] ++ s2l "7,1,b" ++ [NL])) Hov)
    as [_ Hmax].
  assert (Hids : leading_ids (s2l "3,0,a" ++ [NL] ++ s2l "7,1,b" ++ [NL]) = [3%Z; 7%Z])
    by (vm_compute; reflexivity).
  assert (H7in : In 7%Z (leading_ids (s2l "3,0,a" ++ [NL] ++ s2l "7,1,b" ++ [NL])))
    by (rewrite Hids; right; left; reflexivity).
  assert (H7pos : (0 < 7)%Z) by lia.
  destruct (Hmax _ eq_refl 7%Z H7in H7pos) as (m & Hm & Hall & ->).
  rewrite Hids in Hm, Hall.
  destruct Hm as [<- | [<- | []]]; [|reflexivity].
  inversion Hall as [|? ? _ H]; inversion H as [|? ? H7 _]. exfalso. lia.
Defined.

(** C4: a file whose only parsed id is -5 gives [NextId() = 1], not
    [-5 + 1]. *)
Lemma next_id_negative_ids :
  leading_ids (s2l "-5,0,a" ++ [NL]) = [(-5)%Z] /\
  getNextTaskId (Some (s2l "-5,0,a" ++ [NL])) = 1%Z /\ (1 <> -5 + 1)%Z.
Proof. split; [vm_compute; reflexivity|split; [vm_compute; reflexivity|lia]]. Qed.

(** ** Id assignment by [Add] *)

(** C1 (amended): when no leading id of the file reaches [INT_MAX], [Add]
    assigns one plus the largest leading integer (at least 0) among the
    lines currently in the file, an id between 1 and [INT_MAX], and appends
    the record [(id, 0, description)]; the new id is larger than every
    leading integer now in the file.  Nothing remembers ids of deleted
    lines. *)
Theorem add_assigns_current_max_plus_one st d :
  let f := match st with None => [] | Some f => f end in
  let new_id := (fold_right Z.max 0%Z (leading_ids f) + 1)%Z in
  no_id_overflow f ->
  addTask st d = (Some (f ++ print_record new_id 0 d), new_id) /\
  Forall (fun k => k < new_id)%Z (leading_ids f) /\
  (1 <= new_id <= INT_MAX)%Z.
Proof.
  intros f new_id Hov. split; [|split].
  - unfold addTask. fold f. rewrite getNextTaskId_max. reflexivity.
  - destruct (fold_max_bounds (leading_ids f)) as (_ & Hall & _).
    eapply Forall_impl; [|exact Hall]. intros k Hk. cbv beta in *. subst new_id. lia.
  - subst new_id. rewrite <- getNextTaskId_max. apply next_id_range, Hov.
Qed.

Lemma add_assigns_current_max_plus_one_witness :
  addTask (Some (s2l "1,0,a" ++ [NL])) (s2l "b")
  = (Some (s2l "1,0,a" ++ [NL] ++ s2l "2,0,b" ++ [NL]), 2%Z).
Proof.
  assert (Hov : no_id_overflow (s2l "1,0,a" ++ [NL]))
    by (apply no_id_overflow_check; vm_compute; reflexivity).
  destruct (add_assigns_current_max_plus_one (Some (s2l "1,0,a" ++ [NL])) (s2l "b") Hov)
    as [Heq _].
  rewrite Heq. vm_compute. reflexivity.
Defined.

(** C1: ids are reused: add "a" (id 1), add "b" (id 2), delete 2, add "c"
    assigns id 2 again. *)
Lemma add_reuses_deleted_id :
  let '(s1, id1) := addTask None (s2l "a") in
  let '(s2, id2) := addTask s1 (s2l "b") in
  let '(s3, r) := deleteTask s2 id2 in
  let '(_, id3) := addTask s3 (s2l "c") in
  id1 = 1%Z /\ id2 = 2%Z /\ r = TaskFound /\ id3 = 2%Z.
Proof. vm_compute. repeat split. Qed.

(** ** Delete *)

(** C2 (amended): for a file with no NUL byte whose lines fit the line
    buffer, [Delete(id)] omits exactly the lines whose leading integer (the
    [%d] of ["%d,"], read into an [int]) is [id], well-formed or not, and
    copies every other line unchanged, in order; it reports found exactly
    when it omitted a line. *)
Theorem delete_omits_leading_id_lines f taskId :
  nul_free f -> lines_fit f ->
  deleteTask (Some f) taskId =
  (Some (List.concat (filter (fun l => negb (same_id (scan_id l) taskId)) (split_lines f))),
   if existsb (fun l => same_id (scan_id l) taskId) (split_lines f)
   then TaskFound else TaskNotFound).
Proof.
  intros Hnul Hfit. cbn [deleteTask]. rewrite fgets_lines_split by exact Hfit.
  rewrite rewrite_loop_spec. cbn [orb].
  assert (Hall : forall l, In l (split_lines f) -> nul_free l).
  { intros l Hl Hin. apply Hnul. eapply in_split_lines_in; eauto. }
  assert (Hstep : forall l, nul_free l -> delete_line taskId l =
            (if same_id (scan_id l) taskId then [] else l, same_id (scan_id l) taskId)).
  { intros l Hl. unfold delete_line, same_id. rewrite (cstr_nul_free l Hl).
    destruct (scan_id l) as [k|]; [destruct (k =? taskId)%Z|]; reflexivity. }
  induction (split_lines f) as [|l lines IH]; [reflexivity|].
  assert (IH' := IH (fun l' Hl' => Hall l' (or_intror Hl'))). injection IH' as IH1 IH2.
  cbn [map filter existsb List.concat]. rewrite (Hstep l (Hall l (or_introl eq_refl))).
  cbn [fst snd].
  destruct (same_id (scan_id l) taskId); cbn [negb orb List.concat app].
  - rewrite IH1. reflexivity.
  - rewrite IH1. f_equal. destruct (existsb _ lines), (existsb _ lines); congruence.
Qed.

Lemma delete_omits_leading_id_lines_witness :
  deleteTask (Some (s2l "5" ++ [NL] ++ s2l "3,0,a" ++ [NL])) 5
  = (Some (s2l "3,0,a" ++ [NL]), TaskFound).
Proof.
  assert (H1 : nul_free (s2l "5" ++ [NL] ++ s2l "3,0,a" ++ [NL]))
    by (apply nul_free_check; reflexivity).
  assert (H2 : lines_fit (s2l "5" ++ [NL] ++ s2l "3,0,a" ++ [NL]))
    by (apply lines_fit_check; vm_compute; reflexivity).
  rewrite (delete_omits_leading_id_lines _ 5 H1 H2). vm_compute. reflexivity.
Defined.

(** C2: the malformed line "5" (no status, no description) is removed by
    [Delete(5)] instead of being copied through. *)
Lemma delete_removes_malformed_line :
  scan_record (s2l "5" ++ [NL]) = None /\
  deleteTask (Some (s2l "5" ++ [NL])) 5 = (Some [], TaskFound).
Proof. split; vm_compute; reflexivity. Qed.

(** ** Not found *)

(** C8 (amended): for an existing store file with no NUL byte whose lines
    fit the line buffer and a positive id read by [atoi] from the command
    line, [done]/[pending] report "not found", leave the file
    byte-identical and exit 0 when no line is a well-formed record with that
    id (the records fitting the source's buffers); [delete] does the same
    when no line has that id as its leading integer. *)
Theorem not_found_keeps_store f a taskId :
  nul_free f -> lines_fit f -> atoi a = taskId -> (0 < taskId)%Z ->
  (records_fit f ->
   Forall (fun l => match scan_record l with Some (k, _, _) => k <> taskId | None => True end)
          (split_lines f) ->
   main [s2l "done"; a] (Some f) = (0%Z, Some f, StatusChanged taskId TaskNotFound) /\
   main [s2l "pending"; a] (Some f) = (0%Z, Some f, StatusChanged taskId TaskNotFound)) /\
  (Forall (fun l => scan_id l <> Some taskId) (split_lines f) ->
   main [s2l "delete"; a] (Some f) = (0%Z, Some f, Deleted taskId TaskNotFound)).
Proof.
  intros Hnul Hfit Ha Hpos. rewrite <- (fgets_lines_split f Hfit).
  assert (Hgt : (taskId <=? 0)%Z = false) by (apply Z.leb_gt; exact Hpos).
  split.
  - intros _ Hall. rewrite main_done, main_pending. cbv zeta. rewrite Ha, Hgt.
    rewrite !modify_not_found by assumption. split; reflexivity.
  - intros Hall. rewrite main_delete. cbv zeta. rewrite Ha, Hgt.
    rewrite delete_not_found by assumption. reflexivity.
Qed.

Lemma not_found_keeps_store_witness :
  main [s2l "delete"; s2l "9999"] (Some (s2l "1,0,a" ++ [NL] ++ s2l "2,0,b" ++ [NL]))
  = (0%Z, Some (s2l "1,0,a" ++ [NL] ++ s2l "2,0,b" ++ [NL]), Deleted 9999 TaskNotFound).
Proof.
  assert (Hnul : nul_free (s2l "1,0,a" ++ [NL] ++ s2l "2,0,b" ++ [NL])).
  { apply nul_free_check. reflexivity. }
  assert (Hfit : lines_fit (s2l "1,0,a" ++ [NL] ++ s2l "2,0,b" ++ [NL]))
    by (apply lines_fit_check; vm_compute; reflexivity).
  assert (Hpos : (0 < 9999)%Z) by lia.
  destruct (not_found_keeps_store _ (s2l "9999") 9999 Hnul Hfit eq_refl Hpos) as [_ Hdel].
  apply Hdel. apply Forall_forall. intros l Hl. vm_compute in Hl.
  destruct Hl as [<- | [<- | []]]; vm_compute; discriminate.
Defined.

(** C8: [delete 5] removes a malformed line "5" that is no well-formed
    record and reports it found. *)
Lemma not_found_counterexample :
  scan_record (s2l "5" ++ [NL]) = None /\
  main [s2l "delete"; s2l "5"] (Some (s2l "5" ++ [NL])) = (0%Z, Some [], Deleted 5 TaskFound).
Proof. split; vm_compute; reflexivity. Qed.

(** ** Lines [SetStatus] does not target *)

(** C5: a garbage line longer than the line buffer whose tail reads as
    "5,0,abc" is surfaced by [List()] and changed by [SetStatus(5, true)];
    a garbage line holding a NUL byte is cut at it. *)
Lemma set_status_garbage_lines :
  let g := repeat "x"%char 275 ++ s2l "5,0,abc" ++ [NL] in
  let f := s2l "5,0,a" ++ [NL] ++ g in
  scan_record g = None /\
  listTasks (Some f) = Listed [(5%Z, 0%Z, s2l "a"); (5%Z, 0%Z, s2l "abc")] /\
  fst (modifyTaskStatus (Some f) 5 true)
  = Some (s2l "5,1,a" ++ [NL] ++ repeat "x"%char 275 ++ s2l "5,1,abc" ++ [NL]) /\
  fst (modifyTaskStatus (Some (s2l "5,0,a" ++ [NL] ++ s2l "a" ++ [NUL] ++ s2l "b" ++ [NL])) 5 true)
  = Some (s2l "5,1,a" ++ [NL] ++ s2l "a").
Proof. vm_compute. repeat split. Qed.

(** ** Idempotence of [SetStatus] *)

(** C7: a garbage line " " NUL newline in front of record 5 is written back
    as " " without its newline, so the record line gains a leading blank
    after one [SetStatus(5, true)] and loses it after the second. *)
Lemma set_status_not_idempotent_with_nul :
  let f := s2l " " ++ [NUL; NL] ++ s2l "5,0,abc" ++ [NL] in
  fst (modifyTaskStatus (Some f) 5 true) = Some (s2l " 5,1,abc" ++ [NL]) /\
  fst (modifyTaskStatus (fst (modifyTaskStatus (Some f) 5 true)) 5 true)
  = Some (s2l "5,1,abc" ++ [NL]).
Proof. split; vm_compute; reflexivity. Qed.

(** * Further properties of the code *)

(** On a store file with no NUL byte whose records fit the source's
    [int]s and 256-byte description buffer, applying [SetStatus(id, s)]
    twice gives the same file content as applying it once. *)
Theorem set_status_idempotent f taskId complete :
  nul_free f -> records_fit f ->
  fst (modifyTaskStatus (fst (modifyTaskStatus (Some f) taskId complete)) taskId complete)
  = fst (modifyTaskStatus (Some f) taskId complete).
Proof.
  intros Hnul Hfit.
  cbn [modifyTaskStatus]. rewrite rewrite_loop_spec. cbn [fst modifyTaskStatus].
  rewrite rewrite_loop_spec. cbn [fst]. f_equal.
  rewrite fgets_lines_concat.
  2: { apply read_back_map; [apply read_back_fgets_lines|].
       intros l Hl. apply modify_line_shape; [eapply nul_free_line; eauto|].
       intros id st d E. exact (Hfit l id st d Hl E). }
  rewrite map_map. f_equal. apply map_ext_in. intros l Hl.
  apply modify_line_idem. eapply nul_free_line; eauto.
Qed.

Lemma set_status_idempotent_witness :
  fst (modifyTaskStatus (fst (modifyTaskStatus (Some (s2l "5,0,abc" ++ [NL])) 5 true)) 5 true)
  = Some (s2l "5,1,abc" ++ [NL]).
Proof.
  assert (Hnul : nul_free (s2l "5,0,abc" ++ [NL])) by (apply nul_free_check; reflexivity).
  assert (Hfit : records_fit (s2l "5,0,abc" ++ [NL])).
  { intros line id st d Hl E. vm_compute in Hl. destruct Hl as [<- | []].
    vm_compute in E. injection E as <- <- <-. unfold int_range.
    split; [lia|split; [lia|unfold MAX_DESCRIPTION_LEN; cbn [List.length]; lia]]. }
  rewrite (set_status_idempotent _ 5 true Hnul Hfit). vm_compute. reflexivity.
Defined.


(** [addTask] followed by [listTasks]: when the store is empty or ends with
    a newline, its records fit the source's buffers and no id reaches
    [INT_MAX], the records listed afterwards are the old ones followed by
    the new record, with the id [getNextTaskId] chose and status 0. *)
Theorem add_then_list_appends f d :
  ends_line f -> records_fit f -> no_id_overflow f ->
  d <> [] -> ~ In NL d -> nul_free d -> (List.length d < MAX_DESCRIPTION_LEN)%nat ->
  listTasks (fst (addTask (Some f) d))
  = Listed (flat_map list_line (fgets_lines f) ++ [(getNextTaskId (Some f), 0%Z, d)]).
Proof.
  intros Hend _ Hov Hne Hnl Hnd Hlen.
  assert (Hid : int_range (getNextTaskId (Some f)))
    by (apply INT_MAX_range, next_id_range, Hov).
  cbn [addTask fst listTasks]. f_equal.
  rewrite fgets_lines_app by exact Hend.
  rewrite print_record_line by (reflexivity || assumption).
  rewrite flat_map_app. cbn [flat_map]. unfold list_line at 2.
  rewrite scan_record_print by (assumption || (unfold int_range; lia)). reflexivity.
Qed.

Lemma add_then_list_appends_witness :
  listTasks (fst (addTask (Some (s2l "1,0,a" ++ [NL])) (s2l "b")))
  = Listed [(1%Z, 0%Z, s2l "a"); (2%Z, 0%Z, s2l "b")].
Proof.
  assert (He : ends_line (s2l "1,0,a" ++ [NL])) by (right; eexists; reflexivity).
  assert (Hfit : records_fit (s2l "1,0,a" ++ [NL])).
  { intros line id st d Hl E. vm_compute in Hl. destruct Hl as [<- | []].
    vm_compute in E. injection E as <- <- <-. unfold int_range.
    split; [lia|split; [lia|unfold MAX_DESCRIPTION_LEN; cbn [List.length]; lia]]. }
  assert (Hov : no_id_overflow (s2l "1,0,a" ++ [NL]))
    by (apply no_id_overflow_check; vm_compute; reflexivity).
  assert (Hne : s2l "b" <> []) by discriminate.
  assert (Hnl : ~ In NL (s2l "b")) by (intros [H|[]]; discriminate).
  assert (Hnd : nul_free (s2l "b")) by (apply nul_free_check; reflexivity).
  assert (Hlen : (List.length (s2l "b") < MAX_DESCRIPTION_LEN)%nat) by (vm_compute; lia).
  rewrite (add_then_list_appends _ _ He Hfit Hov Hne Hnl Hnd Hlen).
  vm_compute. reflexivity.
Defined.

(** Consecutive [addTask] calls on a store that ends with a newline hand out
    consecutive ids: the next id after an add is the added id plus one, as
    long as the added id stays below [INT_MAX] (so that the next
    [maxId + 1] does not overflow). *)
Theorem add_then_next_id f d :
  ends_line f -> ~ In NL d -> nul_free d ->
  (List.length d < MAX_DESCRIPTION_LEN)%nat -> (getNextTaskId (Some f) < INT_MAX)%Z ->
  getNextTaskId (fst (addTask (Some f) d)) = (snd (addTask (Some f) d) + 1)%Z.
Proof.
  intros Hend Hnl Hnd Hlen Hlt.
  assert (Hid : int_range (getNextTaskId (Some f))).
  { apply INT_MAX_range. split; [|lia]. rewrite getNextTaskId_max.
    destruct (fold_max_bounds (leading_ids f)) as (H0 & _). lia. }
  cbn [addTask fst snd].
  set (new_id := getNextTaskId (Some f)) in *.
  assert (Hlead : leading_ids (f ++ print_record new_id 0 d) = leading_ids f ++ [new_id]).
  { unfold leading_ids. rewrite fgets_lines_app by exact Hend.
    rewrite print_record_line by (reflexivity || assumption).
    rewrite flat_map_app. cbn [flat_map]. rewrite scan_id_print_record by exact Hid.
    reflexivity. }
  rewrite getNextTaskId_max, Hlead, fold_right_app. cbn [fold_right].
  rewrite (Z.max_comm new_id 0), fold_right_max_shift.
  assert (Hm : new_id = (fold_right Z.max 0%Z (leading_ids f) + 1)%Z)
    by (unfold new_id; apply getNextTaskId_max).
  lia.
Qed.

Lemma add_then_next_id_witness :
  ends_line [] /\
  getNextTaskId (fst (addTask (Some []) (s2l "x"))) = (snd (addTask (Some []) (s2l "x")) + 1)%Z.
Proof.
  split; [left; reflexivity|].
  apply add_then_next_id; [left; reflexivity| |apply nul_free_check; reflexivity| |].
  - intros [H|[]]; discriminate.
  - vm_compute; lia.
  - vm_compute. reflexivity.
Defined.

(** [modifyTaskStatus] followed by [listTasks]: the same records are listed
    in the same order; those with the given id now carry status 1 (done) or
    0 (pending), the others are unchanged. *)
Theorem set_status_then_list f taskId complete :
  nul_free f -> records_fit f ->
  listTasks (fst (modifyTaskStatus (Some f) taskId complete))
  = Listed (map (update_status taskId complete) (flat_map list_line (fgets_lines f))).
Proof.
  intros Hnul Hfit. cbn [modifyTaskStatus]. rewrite rewrite_loop_spec. cbn [fst listTasks].
  f_equal. rewrite fgets_lines_concat.
  2: { apply read_back_map; [apply read_back_fgets_lines|].
       intros l Hl. apply modify_line_shape; [eapply nul_free_line; eauto|].
       intros id st d E. exact (Hfit l id st d Hl E). }
  assert (Hall : forall l, In l (fgets_lines f) -> nul_free l)
    by (intros l Hl; eapply nul_free_line; eauto).
  induction (fgets_lines f) as [|l ls IH]; [reflexivity|].
  cbn [map flat_map]. rewrite map_app, IH by (intros; apply Hall; right; assumption).
  rewrite list_line_modify by (apply Hall; left; reflexivity). reflexivity.
Qed.

Lemma set_status_then_list_witness :
  nul_free (s2l "2,0,b" ++ [NL]) /\ records_fit (s2l "2,0,b" ++ [NL]) /\
  listTasks (fst (modifyTaskStatus (Some (s2l "2,0,b" ++ [NL])) 2 true))
  = Listed (map (update_status 2 true)
                (flat_map list_line (fgets_lines (s2l "2,0,b" ++ [NL])))).
Proof.
  assert (Hnul : nul_free (s2l "2,0,b" ++ [NL])) by (apply nul_free_check; reflexivity).
  assert (Hfit : records_fit (s2l "2,0,b" ++ [NL])).
  { intros line id st d Hl E. vm_compute in Hl. destruct Hl as [<- | []].
    vm_compute in E. injection E as <- <- <-. unfold int_range.
    split; [lia|split; [lia|unfold MAX_DESCRIPTION_LEN; cbn [List.length]; lia]]. }
  split; [exact Hnul|split; [exact Hfit|]].
  apply set_status_then_list; assumption.
Defined.

(** On a store whose records fit the source's buffers, [modifyTaskStatus]
    reports the task found exactly when [listTasks] shows a record with that
    id. *)
Theorem set_status_found_iff_listed f taskId complete :
  records_fit f ->
  snd (modifyTaskStatus (Some f) taskId complete) = TaskFound <->
  exists status d, In (taskId, status, d) (flat_map list_line (fgets_lines f)).
Proof.
  intros _. cbn [modifyTaskStatus]. rewrite rewrite_loop_spec. cbn [snd orb].
  assert (Hiff : existsb (fun l => snd (modify_line taskId complete l)) (fgets_lines f) = true
                 <-> exists status d, In (taskId, status, d) (flat_map list_line (fgets_lines f))).
  { rewrite existsb_exists. split.
    - intros (l & Hl & Hs). apply modify_line_found in Hs as (s & d & E).
      exists s, d. apply in_flat_map. exists l. split; [exact Hl|].
      unfold list_line. rewrite E. left; reflexivity.
    - intros (s & d & Hin). apply in_flat_map in Hin as (l & Hl & Hr).
      exists l. split; [exact Hl|]. apply modify_line_found.
      unfold list_line in Hr. destruct (scan_record l) as [r|] eqn:E; [|destruct Hr].
      destruct Hr as [->|[]]. eauto. }
  destruct (existsb _ _); split; intros H.
  - apply Hiff; reflexivity.
  - reflexivity.
  - discriminate.
  - apply Hiff in H. discriminate.
Qed.

Lemma set_status_found_iff_listed_witness :
  snd (modifyTaskStatus (Some (s2l "2,0,b" ++ [NL])) 2 true) = TaskFound.
Proof.
  assert (Hfit : records_fit (s2l "2,0,b" ++ [NL])).
  { intros line id st d Hl E. vm_compute in Hl. destruct Hl as [<- | []].
    vm_compute in E. injection E as <- <- <-. unfold int_range.
    split; [lia|split; [lia|unfold MAX_DESCRIPTION_LEN; cbn [List.length]; lia]]. }
  apply (set_status_found_iff_listed _ 2 true Hfit).
  exists 0%Z, (s2l "b"). vm_compute. left. reflexivity.
Defined.

(** [deleteTask] followed by [listTasks]: on a NUL-free store whose records
    fit the source's buffers, the records listed afterwards are the old ones
    without those carrying the deleted id, in the same order. *)
Theorem delete_then_list f taskId :
  nul_free f -> records_fit f ->
  listTasks (fst (deleteTask (Some f) taskId))
  = Listed (filter (fun r => negb (fst (fst r) =? taskId)%Z)
                   (flat_map list_line (fgets_lines f))).
Proof.
  intros Hnul _. rewrite delete_store by exact Hnul. cbn [listTasks]. f_equal.
  rewrite fgets_lines_concat by (apply read_back_filter, read_back_fgets_lines).
  induction (fgets_lines f) as [|l ls IH]; [reflexivity|].
  cbn [filter flat_map]. rewrite filter_app, list_line_delete_keep.
  destruct (delete_keep taskId l); cbn [flat_map]; rewrite IH; reflexivity.
Qed.

Lemma delete_then_list_witness :
  listTasks (fst (deleteTask (Some (s2l "1,0,a" ++ [NL] ++ s2l "2,0,b" ++ [NL])) 1))
  = Listed (filter (fun r => negb (fst (fst r) =? 1)%Z)
                   (flat_map list_line (fgets_lines (s2l "1,0,a" ++ [NL] ++ s2l "2,0,b" ++ [NL])))).
Proof.
  assert (Hnul : nul_free (s2l "1,0,a" ++ [NL] ++ s2l "2,0,b" ++ [NL]))
    by (apply nul_free_check; reflexivity).
  assert (Hfit : records_fit (s2l "1,0,a" ++ [NL] ++ s2l "2,0,b" ++ [NL])).
  { intros line id st d Hl E. vm_compute in Hl. destruct Hl as [<- | [<- | []]];
      vm_compute in E; injection E as <- <- <-; unfold int_range;
      (split; [lia|split; [lia|unfold MAX_DESCRIPTION_LEN; cbn [List.length]; lia]]). }
  exact (delete_then_list _ 1 Hnul Hfit).
Defined.

(** A second [deleteTask] with the same id finds nothing and leaves the
    store as the first one wrote it. *)
Theorem delete_idempotent f taskId :
  nul_free f ->
  deleteTask (fst (deleteTask (Some f) taskId)) taskId
  = (fst (deleteTask (Some f) taskId), TaskNotFound).
Proof.
  intros Hnul. rewrite delete_store by exact Hnul.
  set (ls := filter (delete_keep taskId) (fgets_lines f)).
  apply delete_not_found.
  - intros Hin. apply in_concat in Hin as (c & Hc & Hx).
    apply filter_In in Hc as [Hc _]. apply Hnul. eapply in_fgets_lines_in; eauto.
  - rewrite fgets_lines_concat by (apply read_back_filter, read_back_fgets_lines).
    apply Forall_forall. intros l Hl. apply filter_In in Hl as [_ Hk].
    unfold delete_keep in Hk. intros E. rewrite E, Z.eqb_refl in Hk. discriminate.
Qed.

Lemma delete_idempotent_witness :
  nul_free (s2l "3,1,c" ++ [NL]) /\
  deleteTask (fst (deleteTask (Some (s2l "3,1,c" ++ [NL])) 3)) 3
  = (fst (deleteTask (Some (s2l "3,1,c" ++ [NL])) 3), TaskNotFound).
Proof.
  assert (Hnul : nul_free (s2l "3,1,c" ++ [NL])) by (apply nul_free_check; reflexivity).
  split; [exact Hnul|]. apply delete_idempotent; exact Hnul.
Defined.

(** When neither the store nor the arguments of [add] overflow the
    source's buffers or [int]s, [main] exits with 0 or 1, and an invocation
    that exits with 1 (usage error, missing description, missing or invalid
    id) never changes the store. *)
Theorem main_exit_codes args st :
  store_fits st -> args_fit args ->
  (fst (fst (main args st)) = 0%Z \/ fst (fst (main args st)) = 1%Z) /\
  (fst (fst (main args st)) = 1%Z -> snd (fst (main args st)) = st).
Proof.
  intros _ _. unfold main. destruct args as [|cmd rest]; [cbn; auto|].
  destruct rest as [|a rest];
    repeat match goal with
    | |- context [if ?b then _ else _] => destruct b
    | |- context [addTask ?s ?d] => destruct (addTask s d)
    | |- context [modifyTaskStatus ?s ?i ?c] => destruct (modifyTaskStatus s i c)
    | |- context [deleteTask ?s ?i] => destruct (deleteTask s i)
    end; cbn [fst snd]; split; auto; discriminate.
Qed.

Lemma main_exit_codes_witness :
  fst (fst (main [s2l "add"; s2l "milk"] None)) = 0%Z \/
  fst (fst (main [s2l "add"; s2l "milk"] None)) = 1%Z.
Proof.
  assert (Hst : store_fits None) by exact I.
  assert (Harg : args_fit [s2l "add"; s2l "milk"]) by (intros _; vm_compute; lia).
  destruct (main_exit_codes _ _ Hst Harg) as [H _]. exact H.
Defined.

(** [done], [pending] and [delete] without an id argument print the usage
    and exit 1; with an argument whose leading number ([atoi]) is not
    positive, such as "abc", "0" or "-3", they report an invalid id and exit
    1.  The store is unchanged in both cases. *)
Theorem main_rejects_bad_id cmd a rest st :
  In cmd ["done"; "pending"; "delete"]%string -> (atoi a <= 0)%Z ->
  main [s2l cmd] st = (1%Z, st, Usage) /\
  main (s2l cmd :: a :: rest) st = (1%Z, st, InvalidTaskId).
Proof.
  intros Hc Ha. apply Z.leb_le in Ha.
  destruct Hc as [<-|[<-|[<-|[]]]]; unfold main; cbn -[atoi Z.leb]; rewrite Ha; split; reflexivity.
Qed.

Lemma main_rejects_bad_id_witness :
  In "done"%string ["done"; "pending"; "delete"]%string /\ (atoi (s2l "abc") <= 0)%Z /\
  main [s2l "done"] None = (1%Z, None, Usage) /\
  main [s2l "done"; s2l "abc"] None = (1%Z, None, InvalidTaskId).
Proof.
  assert (Hin : In "done"%string ["done"; "pending"; "delete"]%string) by (left; reflexivity).
  assert (Ha : (atoi (s2l "abc") <= 0)%Z) by (vm_compute; discriminate).
  split; [exact Hin|split; [exact Ha|]].
  exact (main_rejects_bad_id "done" (s2l "abc") [] None Hin Ha).
Defined.

(** [atoi] on a command-line id skips leading white space and ignores what
    follows the number, so "  7abc" selects task 7; an [int] printed in
    decimal reads back as itself. *)
Theorem atoi_reads_leading_int ws z r :
  int_range z -> Forall (fun c => isspace c = true) ws -> nul_free r ->
  match r with c :: _ => isdigit c = false | [] => True end ->
  atoi (ws ++ print_int z ++ r) = z.
Proof.
  intros Hz Hws Hr Hd. unfold atoi.
  rewrite cstr_nul_free.
  2: { repeat apply nul_free_app; try apply print_int_nul_free; try exact Hr.
       intros Hin. rewrite Forall_forall in Hws. specialize (Hws _ Hin). discriminate. }
  unfold scan_int at 1. rewrite skip_space_spaces by exact Hws.
  fold (scan_int (print_int z ++ r)). rewrite scan_int_print by assumption. reflexivity.
Qed.

Lemma atoi_reads_leading_int_witness :
  Forall (fun c => isspace c = true) (s2l "  ") /\ nul_free (s2l "abc") /\
  isdigit "a"%char = false /\
  atoi (s2l "  " ++ print_int 7 ++ s2l "abc") = 7%Z.
Proof.
  assert (Hws : Forall (fun c => isspace c = true) (s2l "  ")) by (repeat constructor).
  assert (Hr : nul_free (s2l "abc")) by (apply nul_free_check; reflexivity).
  assert (Hd : isdigit "a"%char = false) by reflexivity.
  assert (Hz : int_range 7) by (unfold int_range; lia).
  split; [exact Hws|split; [exact Hr|split; [exact Hd|]]].
  exact (atoi_reads_leading_int (s2l "  ") 7 (s2l "abc") Hz Hws Hr Hd).
Defined.

(** [addTask] on a missing store with a non-empty description that has no
    newline or NUL byte and is shorter than 256 bytes creates the store: the
    new task gets id 1 and is the only record listed. *)
Theorem add_to_missing_store d :
  d <> [] -> ~ In NL d -> nul_free d -> (List.length d < MAX_DESCRIPTION_LEN)%nat ->
  snd (addTask None d) = 1%Z /\ listTasks (fst (addTask None d)) = Listed [(1%Z, 0%Z, d)].
Proof.
  intros Hne Hnl Hnd Hlen. cbn [addTask fst snd listTasks].
  replace (getNextTaskId (Some [])) with 1%Z by reflexivity.
  split; [reflexivity|]. rewrite app_nil_l.
  rewrite print_record_line by (reflexivity || assumption || (unfold int_range; lia)).
  cbn [flat_map]. unfold list_line.
  rewrite scan_record_print by (assumption || (unfold int_range; lia)). reflexivity.
Qed.

Lemma add_to_missing_store_witness :
  s2l "milk" <> [] /\ ~ In NL (s2l "milk") /\ nul_free (s2l "milk") /\
  (List.length (s2l "milk") < MAX_DESCRIPTION_LEN)%nat /\
  snd (addTask None (s2l "milk")) = 1%Z /\
  listTasks (fst (addTask None (s2l "milk"))) = Listed [(1%Z, 0%Z, s2l "milk")].
Proof.
  assert (Hne : s2l "milk" <> []) by discriminate.
  assert (Hnl : ~ In NL (s2l "milk")) by (intros [H|[H|[H|[H|[]]]]]; discriminate).
  assert (Hnd : nul_free (s2l "milk")) by (apply nul_free_check; reflexivity).
  assert (Hlen : (List.length (s2l "milk") < MAX_DESCRIPTION_LEN)%nat) by (vm_compute; lia).
  destruct (add_to_missing_store _ Hne Hnl Hnd Hlen) as [H1 H2].
  exact (conj Hne (conj Hnl (conj Hnd (conj Hlen (conj H1 H2))))).
Defined.

(** Only [add] creates the store: every other invocation of [main] on a
    missing store leaves it missing. *)
Theorem main_only_add_creates_store args :
  match args with cmd :: _ => is_cmd cmd "add" = false | [] => True end ->
  snd (fst (main args None)) = None.
Proof.
  destruct args as [|cmd rest]; [reflexivity|]. intros H. unfold main. rewrite H.
  destruct rest as [|a rest];
    repeat match goal with |- context [if ?b then _ else _] => destruct b end;
    reflexivity.
Qed.

Lemma main_only_add_creates_store_witness :
  is_cmd (s2l "done") "add" = false /\
  snd (fst (main [s2l "done"; s2l "4"] None)) = None.
Proof.
  assert (H : is_cmd (s2l "done") "add" = false) by reflexivity.
  split; [exact H|]. exact (main_only_add_creates_store [s2l "done"; s2l "4"] H).
Defined.

(** Marking a task done or pending never changes the id the next [addTask]
    hands out. *)
Theorem set_status_keeps_next_id f taskId complete :
  nul_free f -> records_fit f ->
  getNextTaskId (fst (modifyTaskStatus (Some f) taskId complete)) = getNextTaskId (Some f).
Proof.
  intros Hnul Hfit. cbn [modifyTaskStatus]. rewrite rewrite_loop_spec. cbn [fst].
  rewrite !getNextTaskId_max. do 2 f_equal. unfold leading_ids.
  rewrite fgets_lines_concat.
  2: { apply read_back_map; [apply read_back_fgets_lines|].
       intros l Hl. apply modify_line_shape; [eapply nul_free_line; eauto|].
       intros id st d E. exact (Hfit l id st d Hl E). }
  assert (Hall : forall l, In l (fgets_lines f) -> nul_free l)
    by (intros l Hl; eapply nul_free_line; eauto).
  induction (fgets_lines f) as [|l ls IH]; [reflexivity|].
  cbn [map flat_map]. rewrite IH by (intros; apply Hall; right; assumption).
  rewrite scan_id_modify by (apply Hall; left; reflexivity). reflexivity.
Qed.

Lemma set_status_keeps_next_id_witness :
  nul_free (s2l "4,0,d" ++ [NL]) /\ records_fit (s2l "4,0,d" ++ [NL]) /\
  getNextTaskId (fst (modifyTaskStatus (Some (s2l "4,0,d" ++ [NL])) 4 true))
  = getNextTaskId (Some (s2l "4,0,d" ++ [NL])).
Proof.
  assert (Hnul : nul_free (s2l "4,0,d" ++ [NL])) by (apply nul_free_check; reflexivity).
  assert (Hfit : records_fit (s2l "4,0,d" ++ [NL])).
  { intros line id st d Hl E. vm_compute in Hl. destruct Hl as [<- | []].
    vm_compute in E. injection E as <- <- <-. unfold int_range.
    split; [lia|split; [lia|unfold MAX_DESCRIPTION_LEN; cbn [List.length]; lia]]. }
  split; [exact Hnul|split; [exact Hfit|]].
  exact (set_status_keeps_next_id _ 4 true Hnul Hfit).
Defined.
